(** * Book Publishing API: a shallow embedding of [main.py]

    The service keeps three SQLite tables (authors, publishers, books) and
    exposes five handlers per table.  Every handler receives a connection
    from [get_db], runs a few statements through a cursor, commits after each
    write, and either returns a value or raises.

    The embedding follows that shape:
    - a table is the list of its rows in rowid order, which is the order a
      full scan of a rowid table visits them;
    - a [Connection] carries the committed store, the working copy the
      statements of this connection see, and the statements executed so far;
    - a handler is a function in the monad [M], state passing over the
      connection with exceptions;
    - [get_db] opens the connection, runs the handler and closes it, so that
      only committed data survives.

    Strings are Unicode texts, which the store keeps as they are.
    Integers are Python integers ([Z]).  SQLite's INTEGER has 64 bits:
    [sqlite3] raises [OverflowError] when a statement is given an integer
    outside that range, which no handler catches.  The rowids of a table
    are such integers, and a table is taken never to reach the largest of
    them, where SQLite would refuse further inserts.  A float goes to the
    REAL column [price], which does not keep the sign of zero.  Foreign keys
    are declared in the schema but the code never switches their enforcement
    on (SQLite leaves it off), so no statement checks them. *)

From stdpp Require Import base numbers list strings option pretty.
From Stdlib Require Import PrimFloat Sorted.

#[local] Set Warnings "-inexact-float".

Local Open Scope string_scope.
Local Open Scope list_scope.
Local Open Scope Z_scope.

(** ** Data model *)

(** [datetime.date]. *)
Record date := Date { year : Z; month : Z; day : Z }.

Module AuthorCreate.
Record t := mk {
  name : string;
  email : option string;
  bio : option string }.
End AuthorCreate.

Module Author.
Record t := mk {
  id : Z;
  name : string;
  email : option string;
  bio : option string;
  date_registered : option date }.
End Author.

Module PublisherCreate.
Record t := mk {
  name : string;
  address : option string;
  phone : option string;
  email : option string }.
End PublisherCreate.

Module Publisher.
Record t := mk {
  id : Z;
  name : string;
  address : option string;
  phone : option string;
  email : option string }.
End Publisher.

(** [price] is declared [Field(None, ge=0)]; the bound is checked by the
    request parser before a handler runs and plays no part in the handlers.
    It lets both zeros through, [0.0] and [-0.0]. *)
Module BookCreate.
Record t := mk {
  title : string;
  description : option string;
  isbn : option string;
  publication_date : option date;
  price : option float;
  genre : option string;
  author_id : option Z;
  publisher_id : option Z }.
End BookCreate.

Module Book.
Record t := mk {
  id : Z;
  title : string;
  description : option string;
  isbn : option string;
  publication_date : option date;
  price : option float;
  genre : option string;
  author_id : option Z;
  publisher_id : option Z }.
End Book.

(** The body of a successful DELETE response: [{"message": ...}]. *)
Record Message := { message : string }.

(** ** The store *)

Inductive table := authors_table | publishers_table | books_table.

(** Each table comes with its AUTOINCREMENT counter, the entry of
    [sqlite_sequence] for it. *)
Record database := Database {
  authors : list Author.t;
  publishers : list Publisher.t;
  books : list Book.t;
  seq_authors : Z;
  seq_publishers : Z;
  seq_books : Z }.

Definition empty_database : database :=
  Database [] [] [] 0 0 0.

Class Row (R : Type) := row_id : R → Z.
#[export] Instance author_row : Row Author.t := Author.id.
#[export] Instance publisher_row : Row Publisher.t := Publisher.id.
#[export] Instance book_row : Row Book.t := Book.id.

(** SQLite's INTEGER: a signed integer of 64 bits. *)
Definition fits (i : Z) : Prop :=
  -9223372036854775808 ≤ i ≤ 9223372036854775807.

Definition int64 (i : Z) : bool := bool_decide (fits i).

(** A REAL column.  SQLite writes a float that is a whole number as an
    integer and reads it back as a float, so a negative zero comes back as
    [0.0]; a NaN is stored as NULL. *)
Definition REAL (p : float) : option float :=
  if PrimFloat.is_nan p then None
  else if PrimFloat.eqb p 0 then Some 0%float
  else Some p.

Section sql.
Context {R : Type} `{!Row R}.

(** [SELECT ... WHERE id = ?] followed by [fetchone()]. *)
Definition fetchone_by_id (i : Z) (rows : list R) : option R :=
  List.find (λ r, row_id r =? i) rows.

(** Whether [i] can be bound to the [?] of a [WHERE id = ?] on this table.
    [sqlite3] takes a Python int of 64 bits and raises [OverflowError] on
    any other.  The rowids of a table are 64-bit integers, so the id of a
    row is one that binds. *)
Definition binds (i : Z) (rows : list R) : bool :=
  match fetchone_by_id i rows with
  | Some _ => true
  | None => int64 i
  end.

(** [DELETE FROM ... WHERE id = ?]. *)
Definition delete_by_id (i : Z) (rows : list R) : list R :=
  List.filter (λ r, negb (row_id r =? i)) rows.

(** [UPDATE ... SET ... WHERE id = ?]. *)
Definition update_by_id (i : Z) (f : R → R) (rows : list R) : list R :=
  (λ r, if row_id r =? i then f r else r) <$> rows.

(** AUTOINCREMENT: one more than the largest rowid the table ever held. *)
Definition next_rowid (seq : Z) (rows : list R) : Z :=
  Z.max seq (foldr Z.max 0 (row_id <$> rows)) + 1.

(** [LIMIT ? OFFSET ?], once [limit] and [skip] are bound: the statement
    that uses it checks that they fit 64 bits.  The handlers bind both as
    they receive them, so both may be negative; SQLite reads a negative
    OFFSET as zero and a negative LIMIT as no upper bound on the number of
    rows. *)
Definition limit_offset (limit offset : Z) (rows : list R) : list R :=
  let rest := drop (Z.to_nat offset) rows in
  if limit <? 0 then rest else take (Z.to_nat limit) rest.

(** A UNIQUE column rejects a non-NULL value that another row holds;
    [self] is the rowid of the row being updated, if any. *)
Definition unique_conflict (col : R → option string) (self : option Z)
    (v : option string) (rows : list R) : bool :=
  match v with
  | None => false
  | Some s =>
      existsb (λ r, bool_decide (col r = Some s)
                    && negb (bool_decide (self = Some (row_id r)))) rows
  end.
End sql.

(** ** Exceptions, statements and the handler monad *)

Inductive exn :=
  | HTTPException (status_code : Z) (detail : string)
  | IntegrityError (msg : string)
  | OverflowError (msg : string)
  | TypeError (msg : string).

(** What [sqlite3] raises for an integer it cannot bind. *)
Definition overflow : exn :=
  OverflowError "Python int too large to convert to SQLite INTEGER".

Inductive result (A : Type) :=
  | Return (a : A)
  | Raise (e : exn).
Arguments Return {A} a.
Arguments Raise {A} e.

Inductive statement :=
  | SELECT (t : table)
  | INSERT (t : table)
  | UPDATE (t : table)
  | DELETE (t : table)
  | COMMIT.

Definition mutating (s : statement) : bool :=
  match s with
  | INSERT _ | UPDATE _ | DELETE _ => true
  | SELECT _ | COMMIT => false
  end.

Record Connection := {
  current_date : date;
  committed : database;
  working : database;
  executed : list statement }.

Definition M (A : Type) : Type := Connection → result A * Connection.

Definition ret {A} (a : A) : M A := λ c, (Return a, c).

Definition raise {A} (e : exn) : M A := λ c, (Raise e, c).

Definition bind {A B} (m : M A) (k : A → M B) : M B :=
  λ c, match m c with
       | (Return a, c') => k a c'
       | (Raise e, c') => (Raise e, c')
       end.

#[export] Instance M_ret : MRet M := @ret.
#[export] Instance M_bind : MBind M := λ A B k m, bind m k.

(** [cursor.execute]: the statement is recorded, and its effect on the
    working copy is kept unless it fails, be it when its parameters are
    bound or when the store runs it. *)
Definition execute {A} (s : statement)
    (run : database → result (A * database)) : M A :=
  λ c, let c' d := {| current_date := current_date c;
                      committed := committed c;
                      working := d;
                      executed := executed c ++ [s] |} in
       match run (working c) with
       | Return (a, d) => (Return a, c' d)
       | Raise e => (Raise e, c' (working c))
       end.

(** [db.commit()]. *)
Definition commit : M () :=
  λ c, (Return (), {| current_date := current_date c;
                      committed := working c;
                      working := working c;
                      executed := executed c ++ [COMMIT] |}).

(** The store's clock, which [DEFAULT CURRENT_DATE] reads on insertion. *)
Definition CURRENT_DATE : M date := λ c, (Return (current_date c), c).

(** [dict(result)] for a fetched row; [dict(None)] is a [TypeError]. *)
Definition dict {R} (row : option R) : M R :=
  match row with
  | Some r => ret r
  | None => raise (TypeError "'NoneType' object is not iterable")
  end.

(** What a request leaves behind: the handler's outcome, the store after
    the connection is closed, and the statements it ran. *)
Record Response (A : Type) := {
  outcome : result A;
  stored : database;
  statements : list statement }.
Arguments outcome {A} _.
Arguments stored {A} _.
Arguments statements {A} _.

Definition connect (now : date) (store : database) : Connection :=
  {| current_date := now; committed := store;
     working := store; executed := [] |}.

(** Closing a connection discards what was not committed. *)
Definition close {A} (r : result A * Connection) : Response A :=
  {| outcome := r.1; stored := committed r.2; statements := executed r.2 |}.

(** [Depends(get_db)]: connect, hand the connection to the handler, close
    it whatever happens. *)
Definition get_db {A} (now : date) (store : database) (handler : M A)
    : Response A :=
  close (handler (connect now store)).

(** ** Statements

    One function per SQL text of the source.  A SELECT raises
    [OverflowError] when an integer it is given does not bind.  A write
    returns the new working copy, or raises the store's [IntegrityError]
    when a UNIQUE column would hold a value twice; an UPDATE checks only the
    row it changes.  The integers a write binds are a rowid the store gave
    out or ones a SELECT of the same request has bound before. *)

Definition insert_author (now : date) (name : string)
    (email bio : option string) (d : database) : result (Z * database) :=
  if unique_conflict Author.email None email (authors d)
  then Raise (IntegrityError "UNIQUE constraint failed: authors.email")
  else
    let i := next_rowid (seq_authors d) (authors d) in
    Return (i, Database (authors d ++ [Author.mk i name email bio (Some now)])
                        (publishers d) (books d)
                        i (seq_publishers d) (seq_books d)).

Definition select_author (i : Z) (d : database)
    : result (option Author.t * database) :=
  if binds i (authors d) then Return (fetchone_by_id i (authors d), d)
  else Raise overflow.

(** [SELECT id FROM authors WHERE id = ?]. *)
Definition select_author_id (i : Z) (d : database)
    : result (option Z * database) :=
  if binds i (authors d)
  then Return (Author.id <$> fetchone_by_id i (authors d), d)
  else Raise overflow.

Definition select_authors (limit skip : Z) (d : database)
    : result (list Author.t * database) :=
  if int64 limit && int64 skip
  then Return (limit_offset limit skip (authors d), d)
  else Raise overflow.

Definition set_author (name : string) (email bio : option string)
    (r : Author.t) : Author.t :=
  Author.mk (Author.id r) name email bio (Author.date_registered r).

Definition update_author_row (i : Z) (name : string)
    (email bio : option string) (d : database) : result (() * database) :=
  if bool_decide (is_Some (fetchone_by_id i (authors d)))
       && unique_conflict Author.email (Some i) email (authors d)
  then Raise (IntegrityError "UNIQUE constraint failed: authors.email")
  else Return ((), Database
                     (update_by_id i (set_author name email bio) (authors d))
                     (publishers d) (books d)
                     (seq_authors d) (seq_publishers d) (seq_books d)).

Definition delete_author_row (i : Z) (d : database)
    : result (() * database) :=
  Return ((), Database (delete_by_id i (authors d)) (publishers d) (books d)
                       (seq_authors d) (seq_publishers d) (seq_books d)).

Definition insert_publisher (name : string)
    (address phone email : option string) (d : database)
    : result (Z * database) :=
  if unique_conflict Publisher.email None email (publishers d)
  then Raise (IntegrityError "UNIQUE constraint failed: publishers.email")
  else
    let i := next_rowid (seq_publishers d) (publishers d) in
    Return (i, Database (authors d)
                        (publishers d ++ [Publisher.mk i name address phone email])
                        (books d)
                        (seq_authors d) i (seq_books d)).

Definition select_publisher (i : Z) (d : database)
    : result (option Publisher.t * database) :=
  if binds i (publishers d) then Return (fetchone_by_id i (publishers d), d)
  else Raise overflow.

(** [SELECT id FROM publishers WHERE id = ?]. *)
Definition select_publisher_id (i : Z) (d : database)
    : result (option Z * database) :=
  if binds i (publishers d)
  then Return (Publisher.id <$> fetchone_by_id i (publishers d), d)
  else Raise overflow.

Definition select_publishers (limit skip : Z) (d : database)
    : result (list Publisher.t * database) :=
  if int64 limit && int64 skip
  then Return (limit_offset limit skip (publishers d), d)
  else Raise overflow.

Definition set_publisher (name : string)
    (address phone email : option string) (r : Publisher.t) : Publisher.t :=
  Publisher.mk (Publisher.id r) name address phone email.

Definition update_publisher_row (i : Z) (name : string)
    (address phone email : option string) (d : database)
    : result (() * database) :=
  if bool_decide (is_Some (fetchone_by_id i (publishers d)))
       && unique_conflict Publisher.email (Some i) email (publishers d)
  then Raise (IntegrityError "UNIQUE constraint failed: publishers.email")
  else Return ((), Database
                     (authors d)
                     (update_by_id i (set_publisher name address phone email)
                        (publishers d))
                     (books d)
                     (seq_authors d) (seq_publishers d) (seq_books d)).

Definition delete_publisher_row (i : Z) (d : database)
    : result (() * database) :=
  Return ((), Database (authors d) (delete_by_id i (publishers d)) (books d)
                       (seq_authors d) (seq_publishers d) (seq_books d)).

Definition book_of (i : Z) (b : BookCreate.t) : Book.t :=
  Book.mk i (BookCreate.title b) (BookCreate.description b)
    (BookCreate.isbn b) (BookCreate.publication_date b) (BookCreate.price b)
    (BookCreate.genre b) (BookCreate.author_id b) (BookCreate.publisher_id b).

(** The values of a book as the columns keep them: all as they are bound
    but the price, which goes through REAL. *)
Definition columns (b : BookCreate.t) : BookCreate.t :=
  BookCreate.mk (BookCreate.title b) (BookCreate.description b)
    (BookCreate.isbn b) (BookCreate.publication_date b)
    (BookCreate.price b ≫= REAL)
    (BookCreate.genre b) (BookCreate.author_id b) (BookCreate.publisher_id b).

Definition insert_book (b : BookCreate.t) (d : database)
    : result (Z * database) :=
  if unique_conflict Book.isbn None (BookCreate.isbn b) (books d)
  then Raise (IntegrityError "UNIQUE constraint failed: books.isbn")
  else
    let i := next_rowid (seq_books d) (books d) in
    Return (i, Database (authors d) (publishers d)
                        (books d ++ [book_of i (columns b)])
                        (seq_authors d) (seq_publishers d) i).

Definition select_book (i : Z) (d : database)
    : result (option Book.t * database) :=
  if binds i (books d) then Return (fetchone_by_id i (books d), d)
  else Raise overflow.

Definition set_book (b : BookCreate.t) (r : Book.t) : Book.t :=
  book_of (Book.id r) (columns b).

Definition update_book_row (i : Z) (b : BookCreate.t) (d : database)
    : result (() * database) :=
  if bool_decide (is_Some (fetchone_by_id i (books d)))
       && unique_conflict Book.isbn (Some i) (BookCreate.isbn b) (books d)
  then Raise (IntegrityError "UNIQUE constraint failed: books.isbn")
  else Return ((), Database
                     (authors d) (publishers d)
                     (update_by_id i (set_book b) (books d))
                     (seq_authors d) (seq_publishers d) (seq_books d)).

Definition delete_book_row (i : Z) (d : database)
    : result (() * database) :=
  Return ((), Database (authors d) (publishers d) (delete_by_id i (books d))
                       (seq_authors d) (seq_publishers d) (seq_books d)).

(** The WHERE clause [read_books] assembles: one equality per condition,
    joined by AND.  An equality with a NULL column is not true. *)
Inductive condition :=
  | genre_eq (g : string)
  | author_id_eq (i : Z)
  | publisher_id_eq (i : Z).

Definition holds (r : Book.t) (c : condition) : bool :=
  match c with
  | genre_eq g => bool_decide (Book.genre r = Some g)
  | author_id_eq i => bool_decide (Book.author_id r = Some i)
  | publisher_id_eq i => bool_decide (Book.publisher_id r = Some i)
  end.

(** The integer a condition binds, if it binds one. *)
Definition bound (c : condition) : option Z :=
  match c with
  | genre_eq _ => None
  | author_id_eq i | publisher_id_eq i => Some i
  end.

Definition select_books (conditions : list condition) (limit skip : Z)
    (d : database) : result (list Book.t * database) :=
  if forallb (λ c, from_option int64 true (bound c)) conditions
     && int64 limit && int64 skip
  then Return (limit_offset limit skip
                 (List.filter (λ r, forallb (holds r) conditions) (books d)),
               d)
  else Raise overflow.

(** ** Bootstrap *)

Definition init_script : M () :=
  now ← CURRENT_DATE;
  execute (INSERT authors_table)
    (insert_author now "Jane Austen" (Some "jane@example.com")
       (Some "Famous English novelist known for her six major novels"));;
  execute (INSERT authors_table)
    (insert_author now "George Orwell" (Some "george@example.com")
       (Some "English novelist and essayist"));;
  execute (INSERT publishers_table)
    (insert_publisher "Penguin Random House" (Some "123 Publishing St, NY")
       (Some "555-1234") (Some "info@prh.com"));;
  execute (INSERT publishers_table)
    (insert_publisher "HarperCollins" (Some "456 Book Ave, CA")
       (Some "555-5678") (Some "info@harpercollins.com"));;
  execute (INSERT books_table)
    (insert_book
       (BookCreate.mk "Pride and Prejudice"
          (Some "A romantic novel of manners") (Some "9780141439518")
          (Some (Date 1813 1 28)) (Some 12.99%float) (Some "Classic")
          (Some 1) (Some 1)));;
  execute (INSERT books_table)
    (insert_book
       (BookCreate.mk "1984"
          (Some "A dystopian social science fiction novel")
          (Some "9780451524935")
          (Some (Date 1949 6 8)) (Some 14.99%float) (Some "Dystopian")
          (Some 2) (Some 2)));;
  commit.

(** The database file either exists or not; [init_db] creates and seeds it
    only when it does not. *)
Definition init_db (now : date) (file : option database) : option database :=
  match file with
  | Some d => Some d
  | None => Some (stored (close (init_script (connect now empty_database))))
  end.

(** ** Author endpoints *)

(** The INSERT names no [date_registered]; the column default fills it from
    the store's clock. *)
Definition create_author (author : AuthorCreate.t) : M Author.t :=
  now ← CURRENT_DATE;
  author_id ← execute (INSERT authors_table)
    (insert_author now (AuthorCreate.name author) (AuthorCreate.email author)
       (AuthorCreate.bio author));
  commit;;
  result ← execute (SELECT authors_table) (select_author author_id);
  dict result.

Definition read_authors (skip limit : Z) : M (list Author.t) :=
  execute (SELECT authors_table) (select_authors limit skip).

Definition read_author (author_id : Z) : M Author.t :=
  result ← execute (SELECT authors_table) (select_author author_id);
  match result with
  | None => raise (HTTPException 404 "Author not found")
  | Some _ => dict result
  end.

Definition update_author (author_id : Z) (author : AuthorCreate.t)
    : M Author.t :=
  result ← execute (SELECT authors_table) (select_author author_id);
  match result with
  | None => raise (HTTPException 404 "Author not found")
  | Some _ =>
      execute (UPDATE authors_table)
        (update_author_row author_id (AuthorCreate.name author)
           (AuthorCreate.email author) (AuthorCreate.bio author));;
      commit;;
      result ← execute (SELECT authors_table) (select_author author_id);
      dict result
  end.

Definition delete_author (author_id : Z) : M Message :=
  result ← execute (SELECT authors_table) (select_author author_id);
  match result with
  | None => raise (HTTPException 404 "Author not found")
  | Some _ =>
      execute (DELETE authors_table) (delete_author_row author_id);;
      commit;;
      mret {| message := "Author " +:+ pretty author_id
                         +:+ " deleted successfully" |}
  end.

(** ** Publisher endpoints *)

Definition create_publisher (publisher : PublisherCreate.t) : M Publisher.t :=
  publisher_id ← execute (INSERT publishers_table)
    (insert_publisher (PublisherCreate.name publisher)
       (PublisherCreate.address publisher) (PublisherCreate.phone publisher)
       (PublisherCreate.email publisher));
  commit;;
  result ← execute (SELECT publishers_table) (select_publisher publisher_id);
  dict result.

Definition read_publishers (skip limit : Z) : M (list Publisher.t) :=
  execute (SELECT publishers_table) (select_publishers limit skip).

Definition read_publisher (publisher_id : Z) : M Publisher.t :=
  result ← execute (SELECT publishers_table) (select_publisher publisher_id);
  match result with
  | None => raise (HTTPException 404 "Publisher not found")
  | Some _ => dict result
  end.

Definition update_publisher (publisher_id : Z) (publisher : PublisherCreate.t)
    : M Publisher.t :=
  result ← execute (SELECT publishers_table) (select_publisher publisher_id);
  match result with
  | None => raise (HTTPException 404 "Publisher not found")
  | Some _ =>
      execute (UPDATE publishers_table)
        (update_publisher_row publisher_id (PublisherCreate.name publisher)
           (PublisherCreate.address publisher)
           (PublisherCreate.phone publisher)
           (PublisherCreate.email publisher));;
      commit;;
      result ← execute (SELECT publishers_table)
                 (select_publisher publisher_id);
      dict result
  end.

Definition delete_publisher (publisher_id : Z) : M Message :=
  result ← execute (SELECT publishers_table) (select_publisher publisher_id);
  match result with
  | None => raise (HTTPException 404 "Publisher not found")
  | Some _ =>
      execute (DELETE publishers_table) (delete_publisher_row publisher_id);;
      commit;;
      mret {| message := "Publisher " +:+ pretty publisher_id
                         +:+ " deleted successfully" |}
  end.

(** ** Book endpoints *)

(** Both book writers validate the author reference, then the publisher
    reference, each only [if ... is not None]. *)
Definition create_book (book : BookCreate.t) : M Book.t :=
  match BookCreate.author_id book with
  | Some author_id =>
      row ← execute (SELECT authors_table) (select_author_id author_id);
      match row with
      | None => raise (HTTPException 404 "Author not found")
      | Some _ => mret ()
      end
  | None => mret ()
  end;;
  match BookCreate.publisher_id book with
  | Some publisher_id =>
      row ← execute (SELECT publishers_table)
              (select_publisher_id publisher_id);
      match row with
      | None => raise (HTTPException 404 "Publisher not found")
      | Some _ => mret ()
      end
  | None => mret ()
  end;;
  book_id ← execute (INSERT books_table) (insert_book book);
  commit;;
  result ← execute (SELECT books_table) (select_book book_id);
  dict result.

(** Python truthiness decides which filters enter the WHERE clause: [None],
    the empty string and [0] are all false. *)
Definition read_books (skip limit : Z) (genre : option string)
    (author_id publisher_id : option Z) : M (list Book.t) :=
  let conditions : list condition := [] in
  let conditions :=
    match genre with
    | Some g => if bool_decide (g = "") then conditions
                else conditions ++ [genre_eq g]
    | None => conditions
    end in
  let conditions :=
    match author_id with
    | Some i => if i =? 0 then conditions
                else conditions ++ [author_id_eq i]
    | None => conditions
    end in
  let conditions :=
    match publisher_id with
    | Some i => if i =? 0 then conditions
                else conditions ++ [publisher_id_eq i]
    | None => conditions
    end in
  execute (SELECT books_table) (select_books conditions limit skip).

Definition read_book (book_id : Z) : M Book.t :=
  result ← execute (SELECT books_table) (select_book book_id);
  match result with
  | None => raise (HTTPException 404 "Book not found")
  | Some _ => dict result
  end.

Definition update_book (book_id : Z) (book : BookCreate.t) : M Book.t :=
  result ← execute (SELECT books_table) (select_book book_id);
  match result with
  | None => raise (HTTPException 404 "Book not found")
  | Some _ =>
      match BookCreate.author_id book with
      | Some author_id =>
          row ← execute (SELECT authors_table) (select_author_id author_id);
          match row with
          | None => raise (HTTPException 404 "Author not found")
          | Some _ => mret ()
          end
      | None => mret ()
      end;;
      match BookCreate.publisher_id book with
      | Some publisher_id =>
          row ← execute (SELECT publishers_table)
                  (select_publisher_id publisher_id);
          match row with
          | None => raise (HTTPException 404 "Publisher not found")
          | Some _ => mret ()
          end
      | None => mret ()
      end;;
      execute (UPDATE books_table) (update_book_row book_id book);;
      commit;;
      result ← execute (SELECT books_table) (select_book book_id);
      dict result
  end.

Definition delete_book (book_id : Z) : M Message :=
  result ← execute (SELECT books_table) (select_book book_id);
  match result with
  | None => raise (HTTPException 404 "Book not found")
  | Some _ =>
      execute (DELETE books_table) (delete_book_row book_id);;
      commit;;
      mret {| message := "Book " +:+ pretty book_id
                         +:+ " deleted successfully" |}
  end.

(** ** Query parameters

    [skip: int = 0, limit: int = 100]: a parameter missing from the query
    string takes its default before the handler is called. *)
Definition list_authors (skip limit : option Z) : M (list Author.t) :=
  read_authors (default 0 skip) (default 100 limit).

Definition list_publishers (skip limit : option Z) : M (list Publisher.t) :=
  read_publishers (default 0 skip) (default 100 limit).

Definition list_books (skip limit : option Z) (genre : option string)
    (author_id publisher_id : option Z) : M (list Book.t) :=
  read_books (default 0 skip) (default 100 limit) genre author_id publisher_id.

(** The store right after the first startup. *)
Definition sample (now : date) : database :=
  default empty_database (init_db now None).

(** ** Reading a response *)

(** How the framework answers: an [HTTPException] becomes a response with
    its status code, any other exception escaping a handler becomes a 500. *)
Definition status_code_of {A} (r : result A) : Z :=
  match r with
  | Return _ => 200
  | Raise (HTTPException status_code _) => status_code
  | Raise _ => 500
  end.


(** A reference is dangling when it is not NULL and no row has that id:
    the test both book writers make before their statement. *)
Definition dangling {R} `{!Row R} (ref : option Z) (rows : list R) : bool :=
  match ref with
  | None => false
  | Some i => match fetchone_by_id i rows with None => true | Some _ => false end
  end.

Definition read_only (l : list statement) : bool :=
  forallb (λ s, negb (mutating s)) l.

(** ** Shapes of responses *)

#[export] Instance table_eq_dec : EqDecision table.
Proof. solve_decision. Defined.
#[export] Instance statement_eq_dec : EqDecision statement.
Proof. solve_decision. Defined.

(** The response of a request that stopped at its existence check. *)
Definition not_found {A} (store : database) (t : table) (detail : string)
    : Response A :=
  {| outcome := Raise (HTTPException 404 detail);
     stored := store;
     statements := [SELECT t] |}.

(** The response of a request whose first SELECT could not bind an
    integer. *)
Definition oversized {A} (store : database) (t : table) : Response A :=
  {| outcome := Raise overflow;
     stored := store;
     statements := [SELECT t] |}.

(** A reference that is NULL or fits 64 bits. *)
Definition bindable (ref : option Z) : bool := from_option int64 true ref.

(** A request turned down with a 404 before any write. *)
Definition rejected {A} (store : database) (detail : string)
    (r : Response A) : Prop :=
  outcome r = Raise (HTTPException 404 detail)
  ∧ stored r = store
  ∧ read_only (statements r) = true.

(** A request that ended in [e] before any write. *)
Definition turned_down {A} (store : database) (e : exn) (r : Response A)
    : Prop :=
  outcome r = Raise e
  ∧ stored r = store
  ∧ read_only (statements r) = true.

(** A request that ended in the store's exception, which no handler
    catches: nothing was committed and the framework answers 500. *)
Definition uncaught {A} (store : database) (msg : string)
    (r : Response A) : Prop :=
  outcome r = Raise (IntegrityError msg)
  ∧ stored r = store
  ∧ status_code_of (outcome r) = 500.

(** Replacing a whole table, to compare a request across stores. *)
Definition set_authors (rows : list Author.t) (d : database) : database :=
  Database rows (publishers d) (books d)
    (seq_authors d) (seq_publishers d) (seq_books d).

Definition set_publishers (rows : list Publisher.t) (d : database)
    : database :=
  Database (authors d) rows (books d)
    (seq_authors d) (seq_publishers d) (seq_books d).


(** The filter the listing is meant to apply: every criterion that is given
    must equal the stored column, a criterion that is not given lets every
    row through. *)
Definition matches (genre : option string) (author_id publisher_id : option Z)
    (r : Book.t) : bool :=
  match genre with
  | Some g => bool_decide (Book.genre r = Some g)
  | None => true
  end
  && match author_id with
     | Some i => bool_decide (Book.author_id r = Some i)
     | None => true
     end
  && match publisher_id with
     | Some i => bool_decide (Book.publisher_id r = Some i)
     | None => true
     end.

(** The filter values [read_books] takes up: those Python holds for true,
    which the empty string and zero are not. *)
Definition given_string (g : option string) : option string :=
  match g with
  | Some g => if bool_decide (g = "") then None else Some g
  | None => None
  end.

Definition given_id (i : option Z) : option Z :=
  match i with
  | Some i => if i =? 0 then None else Some i
  | None => None
  end.

(** The books a listing pages through. *)
Definition selected (genre : option string) (author_id publisher_id : option Z)
    (rows : list Book.t) : list Book.t :=
  List.filter (matches (given_string genre) (given_id author_id)
                 (given_id publisher_id)) rows.

(** At most [limit] records, starting after the first [skip]. *)
Definition page {R} (skip limit : Z) (rows : list R) : list R :=
  take (Z.to_nat limit) (drop (Z.to_nat skip) rows).

(** Pages of [rows] fit together under [listing], which lists [rows] by
    skip and limit: two pages in a row make up the longer page, a page
    that starts behind the last row is empty, and a page from the start
    that is long enough is all of [rows]. *)
Definition pages_fit {R} (rows : list R)
    (listing : Z → Z → result (list R)) (skip n m : Z) : Prop :=
  ∃ l1 l2,
    listing skip n = Return l1
    ∧ listing (skip + n) m = Return l2
    ∧ listing skip (n + m) = Return (l1 ++ l2)
    ∧ (Z.of_nat (length rows) ≤ skip → l1 = [])
    ∧ (skip = 0 → Z.of_nat (length rows) ≤ n → l1 = rows).

Definition pages_of {R} (skip limit : Z) (rows : list R)
    (r : Response (list R)) : Prop :=
  ∃ l, outcome r = Return l
       ∧ l = page skip limit rows
       ∧ Z.of_nat (length l) ≤ limit.

(** ** Sample inputs *)

Definition sample_date : date := Date 2024 1 1.

Definition untitled : BookCreate.t :=
  BookCreate.mk "Untitled" None None None None None None None.

Definition with_references (author_id publisher_id : option Z)
    (b : BookCreate.t) : BookCreate.t :=
  BookCreate.mk (BookCreate.title b) (BookCreate.description b)
    (BookCreate.isbn b) (BookCreate.publication_date b) (BookCreate.price b)
    (BookCreate.genre b) author_id publisher_id.

Definition author_input (name : string) (email : option string)
    : AuthorCreate.t :=
  AuthorCreate.mk name email None.

Definition publisher_input (name : string) (email : option string)
    : PublisherCreate.t :=
  PublisherCreate.mk name None None email.



Definition with_genre (genre : option string) (b : BookCreate.t)
    : BookCreate.t :=
  BookCreate.mk (BookCreate.title b) (BookCreate.description b)
    (BookCreate.isbn b) (BookCreate.publication_date b) (BookCreate.price b)
    genre (BookCreate.author_id b) (BookCreate.publisher_id b).

(** The sample data and one more book, of genre "Classical". *)
Definition classical_store : database :=
  stored (get_db sample_date (sample sample_date)
            (create_book (with_genre (Some "Classical") untitled))).

(** What matters of a response once the connection is gone. *)
Definition summary {A} (r : Response A) : result A * database :=
  (outcome r, stored r).

(** ** The application

    The routes registered on [app], one request per decorated handler, and
    what each answers with.  A list route fills in the defaults of missing
    paging parameters. *)
Inductive request :=
  | POST_authors (author : AuthorCreate.t)
  | GET_authors (skip limit : option Z)
  | GET_author (author_id : Z)
  | PUT_author (author_id : Z) (author : AuthorCreate.t)
  | DELETE_author (author_id : Z)
  | POST_publishers (publisher : PublisherCreate.t)
  | GET_publishers (skip limit : option Z)
  | GET_publisher (publisher_id : Z)
  | PUT_publisher (publisher_id : Z) (publisher : PublisherCreate.t)
  | DELETE_publisher (publisher_id : Z)
  | POST_books (book : BookCreate.t)
  | GET_books (skip limit : option Z) (genre : option string)
      (author_id publisher_id : option Z)
  | GET_book (book_id : Z)
  | PUT_book (book_id : Z) (book : BookCreate.t)
  | DELETE_book (book_id : Z).

Inductive body :=
  | an_author (a : Author.t)
  | some_authors (l : list Author.t)
  | a_publisher (p : Publisher.t)
  | some_publishers (l : list Publisher.t)
  | a_book (b : Book.t)
  | some_books (l : list Book.t)
  | a_message (m : Message).

Definition reply {A} (wrap : A → body) (handler : M A) : M body :=
  r ← handler; mret (wrap r).

Definition app (req : request) : M body :=
  match req with
  | POST_authors author => reply an_author (create_author author)
  | GET_authors skip limit => reply some_authors (list_authors skip limit)
  | GET_author author_id => reply an_author (read_author author_id)
  | PUT_author author_id author =>
      reply an_author (update_author author_id author)
  | DELETE_author author_id => reply a_message (delete_author author_id)
  | POST_publishers publisher =>
      reply a_publisher (create_publisher publisher)
  | GET_publishers skip limit =>
      reply some_publishers (list_publishers skip limit)
  | GET_publisher publisher_id =>
      reply a_publisher (read_publisher publisher_id)
  | PUT_publisher publisher_id publisher =>
      reply a_publisher (update_publisher publisher_id publisher)
  | DELETE_publisher publisher_id =>
      reply a_message (delete_publisher publisher_id)
  | POST_books book => reply a_book (create_book book)
  | GET_books skip limit genre author_id publisher_id =>
      reply some_books (list_books skip limit genre author_id publisher_id)
  | GET_book book_id => reply a_book (read_book book_id)
  | PUT_book book_id book => reply a_book (update_book book_id book)
  | DELETE_book book_id => reply a_message (delete_book book_id)
  end.

(** The table a route works on, and whether it is a GET. *)
Definition table_of (req : request) : table :=
  match req with
  | POST_authors _ | GET_authors _ _ | GET_author _ | PUT_author _ _
  | DELETE_author _ => authors_table
  | POST_publishers _ | GET_publishers _ _ | GET_publisher _
  | PUT_publisher _ _ | DELETE_publisher _ => publishers_table
  | POST_books _ | GET_books _ _ _ _ _ | GET_book _ | PUT_book _ _
  | DELETE_book _ => books_table
  end.

Definition is_get (req : request) : bool :=
  match req with
  | GET_authors _ _ | GET_author _ | GET_publishers _ _ | GET_publisher _
  | GET_books _ _ _ _ _ | GET_book _ => true
  | _ => false
  end.

(** The id in the path of a route, if it has one. *)
Definition target (req : request) : option Z :=
  match req with
  | GET_author i | PUT_author i _ | DELETE_author i
  | GET_publisher i | PUT_publisher i _ | DELETE_publisher i
  | GET_book i | PUT_book i _ | DELETE_book i => Some i
  | _ => None
  end.

(** The deletes that can take away a row books point to. *)
Definition deletes_parent (req : request) : bool :=
  match req with
  | DELETE_author _ | DELETE_publisher _ => true
  | _ => false
  end.

(** The exceptions of the service: the 404 of each entity, raised by the
    handlers, and the violation of each table's UNIQUE column, raised by
    the store. *)
Definition not_found_in (t : table) : exn :=
  HTTPException 404
    match t with
    | authors_table => "Author not found"
    | publishers_table => "Publisher not found"
    | books_table => "Book not found"
    end.

(** What the existence check of an id that no row has ends in. *)
Definition absent (t : table) (i : Z) : exn :=
  if int64 i then not_found_in t else overflow.

(** What the check of a dangling reference ends in. *)
Definition missing (t : table) (ref : option Z) : exn :=
  from_option (absent t) (not_found_in t) ref.

Definition duplicate_in (t : table) : exn :=
  IntegrityError
    match t with
    | authors_table => "UNIQUE constraint failed: authors.email"
    | publishers_table => "UNIQUE constraint failed: publishers.email"
    | books_table => "UNIQUE constraint failed: books.isbn"
    end.

(** The exceptions each route can end in.  Every route that receives an
    integer hands it to a statement, and so can end in [overflow]. *)
Definition may_raise (req : request) : list exn :=
  match req with
  | GET_authors _ _ | GET_publishers _ _ | GET_books _ _ _ _ _ => [overflow]
  | GET_author _ | DELETE_author _ | GET_publisher _ | DELETE_publisher _
  | GET_book _ | DELETE_book _ => [not_found_in (table_of req); overflow]
  | POST_authors _ | POST_publishers _ => [duplicate_in (table_of req)]
  | PUT_author _ _ | PUT_publisher _ _ =>
      [not_found_in (table_of req); duplicate_in (table_of req); overflow]
  | POST_books _ =>
      [not_found_in authors_table; not_found_in publishers_table;
       duplicate_in books_table; overflow]
  | PUT_book _ _ =>
      [not_found_in books_table; not_found_in authors_table;
       not_found_in publishers_table; duplicate_in books_table; overflow]
  end.


(** The store after a series of requests, each served on the day it
    arrives by a connection of its own. *)
Fixpoint serve (reqs : list (date * request)) (store : database) : database :=
  match reqs with
  | [] => store
  | (now, req) :: reqs => serve reqs (stored (get_db now store (app req)))
  end.

(** ** Invariants of the store *)

Section keys.
Context {R : Type} `{!Row R}.

(** Primary keys: along the table the rowids are positive and strictly
    increasing, and none is above the table's counter. *)
Definition keys_ok (seq : Z) (rows : list R) : Prop :=
  StronglySorted Z.lt (row_id <$> rows)
  ∧ Forall (λ r, 0 < row_id r ≤ seq) rows.

(** A UNIQUE column: a value that is not NULL is held by one rowid only. *)
Definition unique_ok (col : R → option string) (rows : list R) : Prop :=
  ∀ r1 r2 s, r1 ∈ rows → r2 ∈ rows →
    col r1 = Some s → col r2 = Some s → row_id r1 = row_id r2.
End keys.

(** What one request can do to a table whose counter is [seq] and whose
    rows are [rows], when the id in its path is [tgt]: nothing, append a
    row under the next rowid, rewrite the rows of the target id in place,
    or take them out. *)
Inductive table_step {R : Type} `{!Row R} (tgt : option Z) (seq : Z)
    (rows : list R) : Z → list R → Prop :=
  | step_none : table_step tgt seq rows seq rows
  | step_insert (r : R) :
      row_id r = next_rowid seq rows →
      table_step tgt seq rows (next_rowid seq rows) (rows ++ [r])
  | step_update (i : Z) (f : R → R) :
      tgt = Some i → (∀ r, row_id (f r) = row_id r) →
      table_step tgt seq rows seq (update_by_id i f rows)
  | step_delete (i : Z) :
      tgt = Some i → table_step tgt seq rows seq (delete_by_id i rows).



(** The prices of a table are as REAL keeps them. *)
Definition prices_ok (rows : list Book.t) : Prop :=
  Forall (λ b, Book.price b ≫= REAL = Book.price b) rows.

Definition well_formed (d : database) : Prop :=
  (keys_ok (seq_authors d) (authors d)
   ∧ unique_ok Author.email (authors d))
  ∧ (keys_ok (seq_publishers d) (publishers d)
     ∧ unique_ok Publisher.email (publishers d))
  ∧ (keys_ok (seq_books d) (books d)
     ∧ unique_ok Book.isbn (books d)
     ∧ prices_ok (books d)).

(** Every book points to an author and a publisher that exist, or to
    none. *)
Definition references_ok (d : database) : Prop :=
  Forall (λ b, dangling (Book.author_id b) (authors d) = false
               ∧ dangling (Book.publisher_id b) (publishers d) = false)
         (books d).

(** The input that repeats a stored record. *)
Definition author_fields (r : Author.t) : AuthorCreate.t :=
  AuthorCreate.mk (Author.name r) (Author.email r) (Author.bio r).

Definition publisher_fields (r : Publisher.t) : PublisherCreate.t :=
  PublisherCreate.mk (Publisher.name r) (Publisher.address r)
    (Publisher.phone r) (Publisher.email r).

Definition book_fields (r : Book.t) : BookCreate.t :=
  BookCreate.mk (Book.title r) (Book.description r) (Book.isbn r)
    (Book.publication_date r) (Book.price r) (Book.genre r)
    (Book.author_id r) (Book.publisher_id r).

(** ** Proof automation *)

Create HintDb handlers discriminated.
#[local] Hint Unfold get_db close connect mbind M_bind bind mret M_ret ret
  raise execute commit dict CURRENT_DATE
  select_author select_author_id select_authors delete_author_row
  select_publisher select_publisher_id select_publishers delete_publisher_row
  select_book select_books delete_book_row binds
  create_author read_authors read_author update_author delete_author
  create_publisher read_publishers read_publisher update_publisher
  delete_publisher
  create_book read_books read_book update_book delete_book
  list_authors list_publishers list_books reply : handlers.

Arguments fetchone_by_id : simpl never.
Arguments update_by_id : simpl never.
Arguments delete_by_id : simpl never.
Arguments limit_offset : simpl never.
Arguments next_rowid : simpl never.

Ltac run_handler := autounfold with handlers; cbn.

(** [is_Some] of a lookup in a concrete table, decided by evaluation. *)
Ltac found := apply (bool_decide_unpack _); exact I.

(** Split a proof along the cases of a handler's summary [lem]. *)
Ltac by_summary lem :=
  let H := fresh "Hsum" in
  let Ho := fresh "Ho" in
  let Hs := fresh "Hs" in
  pose proof lem as H; unfold summary in H; cbv zeta in H;
  repeat match type of H with
    | context [match ?x with _ => _ end] => destruct x eqn:?
    end;
  apply pair_equal_spec in H as [Ho Hs]; rewrite ?Ho, ?Hs in *.




(** * Properties *)

(** ** Rows and statements *)

Section sql_facts.
Context {R : Type} `{!Row R}.
Implicit Types (rows : list R) (i : Z).

Lemma fetchone_by_id_Some i rows r :
  fetchone_by_id i rows = Some r → row_id r = i ∧ r ∈ rows.
Proof.
  unfold fetchone_by_id. intros Hf.
  apply find_some in Hf as [Hin Heq].
  split; [by apply Z.eqb_eq | by apply list_elem_of_In].
Qed.

Lemma fetchone_by_id_None i rows :
  fetchone_by_id i rows = None ↔ ∀ r, r ∈ rows → row_id r ≠ i.
Proof.
  unfold fetchone_by_id. split.
  - intros Hf r Hin Heq.
    apply list_elem_of_In in Hin.
    pose proof (find_none _ _ Hf r Hin) as Hb. simpl in Hb.
    by apply Z.eqb_neq in Hb.
  - intros Hall. induction rows as [|r rows IH]; [done|].
    simpl. destruct (Z.eqb_spec (row_id r) i) as [Heq|Hne].
    + exfalso. by apply (Hall r); [left|].
    + apply IH. intros r' Hin. apply Hall. by right.
Qed.

Lemma fetchone_update_by_id i (f : R → R) rows :
  (∀ r, row_id (f r) = row_id r) →
  fetchone_by_id i (update_by_id i f rows) = f <$> fetchone_by_id i rows.
Proof.
  intros Hid. unfold fetchone_by_id, update_by_id.
  induction rows as [|r rows IH]; [done|].
  cbn. destruct (Z.eqb_spec (row_id r) i) as [Heq|Hne].
  - rewrite Hid. by destruct (Z.eqb_spec (row_id r) i).
  - by destruct (Z.eqb_spec (row_id r) i).
Qed.

Lemma fetchone_delete_by_id i rows :
  fetchone_by_id i (delete_by_id i rows) = None.
Proof.
  apply fetchone_by_id_None. intros r Hin Heq.
  unfold delete_by_id in Hin.
  apply list_elem_of_In, filter_In in Hin as [_ Hb].
  apply negb_true_iff, Z.eqb_neq in Hb. done.
Qed.

Lemma next_rowid_above seq rows r :
  r ∈ rows → row_id r < next_rowid seq rows.
Proof.
  unfold next_rowid. intros Hin.
  enough (row_id r ≤ foldr Z.max 0 (row_id <$> rows)) by lia.
  induction Hin as [r rows|r r' rows _ IH]; rewrite fmap_cons, foldr_cons; lia.
Qed.

Lemma next_rowid_positive seq rows : 0 < next_rowid seq rows.
Proof.
  unfold next_rowid.
  enough (0 ≤ foldr Z.max 0 (row_id <$> rows)) by lia.
  induction rows as [|r rows IH]; [done|].
  rewrite fmap_cons, foldr_cons. lia.
Qed.

Lemma fetchone_app_fresh i rows r :
  fetchone_by_id i rows = None → row_id r = i →
  fetchone_by_id i (rows ++ [r]) = Some r.
Proof.
  unfold fetchone_by_id. intros Hnone Hr.
  induction rows as [|r' rows IH]; cbn in *.
  - by rewrite (proj2 (Z.eqb_eq _ _) Hr).
  - destruct (row_id r' =? i); [done | by apply IH].
Qed.

(** A row appended under the next rowid is the one found under it. *)
Lemma fetchone_appended seq rows r :
  row_id r = next_rowid seq rows →
  fetchone_by_id (next_rowid seq rows) (rows ++ [r]) = Some r.
Proof.
  intros Hr. apply fetchone_app_fresh; [|done].
  apply fetchone_by_id_None. intros r' Hin.
  pose proof (next_rowid_above seq rows r' Hin). lia.
Qed.

Lemma int64_fits i : int64 i = true ↔ fits i.
Proof. apply bool_decide_eq_true. Qed.

Lemma int64_outside i : int64 i = false ↔ ¬ fits i.
Proof. apply bool_decide_eq_false. Qed.

Lemma binds_found i rows r : fetchone_by_id i rows = Some r → binds i rows = true.
Proof. unfold binds. by intros ->. Qed.

Lemma binds_absent i rows :
  fetchone_by_id i rows = None → binds i rows = int64 i.
Proof. unfold binds. by intros ->. Qed.

Lemma binds_fits i rows : fits i → binds i rows = true.
Proof.
  intros Hi. unfold binds. destruct (fetchone_by_id i rows); [done|].
  by apply int64_fits.
Qed.

Lemma limit_offset_length limit skip rows :
  0 ≤ limit → (length (limit_offset limit skip rows) ≤ Z.to_nat limit)%nat.
Proof.
  intros Hl. unfold limit_offset.
  destruct (Z.ltb_spec limit 0); [lia|].
  rewrite length_take. lia.
Qed.

Lemma limit_offset_nonneg limit skip rows :
  0 ≤ limit →
  limit_offset limit skip rows
  = take (Z.to_nat limit) (drop (Z.to_nat skip) rows).
Proof.
  intros Hl. unfold limit_offset. by destruct (Z.ltb_spec limit 0); [lia|].
Qed.

Lemma limit_offset_sublist limit skip rows :
  limit_offset limit skip rows `sublist_of` rows.
Proof.
  unfold limit_offset. destruct (limit <? 0).
  - apply sublist_drop.
  - etrans; [apply sublist_take | apply sublist_drop].
Qed.
End sql_facts.

(** ** Lookups of absent ids *)

(** C4, for the ids SQLite takes.  For each of the three entities, get,
    update and delete of an id that no row has and that fits 64 bits raise
    the 404 of that entity and nothing else; the only statement run is the
    SELECT of the existence check, and the store is what it was.  An id
    outside 64 bits does not get that far: the SELECT raises OverflowError
    when the id is bound, which leaves the store as it was too. *)
Theorem absent_id_not_found now store :
  (∀ i a, fetchone_by_id i (authors store) = None →
     (fits i →
      get_db now store (read_author i)
      = not_found store authors_table "Author not found"
      ∧ get_db now store (update_author i a)
        = not_found store authors_table "Author not found"
      ∧ get_db now store (delete_author i)
        = not_found store authors_table "Author not found")
     ∧ (¬ fits i →
        get_db now store (read_author i) = oversized store authors_table
        ∧ get_db now store (update_author i a)
          = oversized store authors_table
        ∧ get_db now store (delete_author i)
          = oversized store authors_table))
  ∧ (∀ i p, fetchone_by_id i (publishers store) = None →
       (fits i →
        get_db now store (read_publisher i)
        = not_found store publishers_table "Publisher not found"
        ∧ get_db now store (update_publisher i p)
          = not_found store publishers_table "Publisher not found"
        ∧ get_db now store (delete_publisher i)
          = not_found store publishers_table "Publisher not found")
       ∧ (¬ fits i →
          get_db now store (read_publisher i)
          = oversized store publishers_table
          ∧ get_db now store (update_publisher i p)
            = oversized store publishers_table
          ∧ get_db now store (delete_publisher i)
            = oversized store publishers_table))
  ∧ (∀ i b, fetchone_by_id i (books store) = None →
       (fits i →
        get_db now store (read_book i)
        = not_found store books_table "Book not found"
        ∧ get_db now store (update_book i b)
          = not_found store books_table "Book not found"
        ∧ get_db now store (delete_book i)
          = not_found store books_table "Book not found")
       ∧ (¬ fits i →
          get_db now store (read_book i) = oversized store books_table
          ∧ get_db now store (update_book i b) = oversized store books_table
          ∧ get_db now store (delete_book i) = oversized store books_table)).
Proof.
  unfold not_found, oversized.
  repeat apply conj; intros i x Hnone; split;
    [intros Hi%int64_fits | intros Hi%int64_outside |
     intros Hi%int64_fits | intros Hi%int64_outside |
     intros Hi%int64_fits | intros Hi%int64_outside];
    repeat split; run_handler; by rewrite Hnone, Hi.
Qed.

Lemma absent_id_not_found_sample :
  let store := sample sample_date in
  get_db sample_date store (read_author 99)
  = not_found store authors_table "Author not found"
  ∧ get_db sample_date store
      (update_publisher 0 (publisher_input "Nobody" None))
    = not_found store publishers_table "Publisher not found"
  ∧ get_db sample_date store (delete_book 3)
    = not_found store books_table "Book not found"
  ∧ get_db sample_date store (delete_book (-9223372036854775809))
    = oversized store books_table.
Proof.
  intros store.
  destruct (absent_id_not_found sample_date store) as (Ha & Hp & Hb).
  destruct (Ha 99 (author_input "Nobody" None) eq_refl) as ((Hread & _) & _);
    [unfold fits; lia|].
  destruct (Hp 0 (publisher_input "Nobody" None) eq_refl)
    as ((_ & Hupdate & _) & _); [unfold fits; lia|].
  destruct (Hb 3 untitled eq_refl) as ((_ & _ & Hdelete) & _);
    [unfold fits; lia|].
  destruct (Hb (-9223372036854775809) untitled eq_refl)
    as (_ & (_ & _ & Hover)); [unfold fits; lia|].
  split; [exact Hread|]. split; [exact Hupdate|].
  split; [exact Hdelete | exact Hover].
Defined.

(** C4 as worded fails for an id outside 64 bits, which no row can have:
    the get of author 2^63 ends in the OverflowError of the SELECT, which
    is answered with a 500, not in the 404. *)
Lemma oversized_id_is_server_error :
  let store := sample sample_date in
  let r := get_db sample_date store (read_author 9223372036854775808) in
  fetchone_by_id 9223372036854775808 (authors store) = None
  ∧ outcome r = Raise overflow
  ∧ outcome r ≠ Raise (HTTPException 404 "Author not found")
  ∧ status_code_of (outcome r) = 500.
Proof. repeat split; vm_compute; done. Qed.

(** ** Reference checks of the book writers *)

Lemma missing_bindable t ref :
  bindable ref = true → missing t ref = not_found_in t.
Proof.
  destruct ref as [i|]; [|done]. cbn. unfold absent. by intros ->.
Qed.

Lemma create_book_author_dangling now store b :
  dangling (BookCreate.author_id b) (authors store) = true →
  get_db now store (create_book b)
  = {| outcome := Raise (missing authors_table (BookCreate.author_id b));
       stored := store;
       statements := [SELECT authors_table] |}.
Proof.
  unfold dangling, missing, absent. run_handler.
  destruct (BookCreate.author_id b) as [i|]; [|done].
  cbn. destruct (fetchone_by_id i (authors store)); [done|].
  by destruct (int64 i).
Qed.

Lemma update_book_author_dangling now store ib b :
  is_Some (fetchone_by_id ib (books store)) →
  dangling (BookCreate.author_id b) (authors store) = true →
  get_db now store (update_book ib b)
  = {| outcome := Raise (missing authors_table (BookCreate.author_id b));
       stored := store;
       statements := [SELECT books_table; SELECT authors_table] |}.
Proof.
  intros [row Hrow]. unfold dangling, missing, absent. run_handler.
  rewrite Hrow.
  destruct (BookCreate.author_id b) as [i|]; [|done].
  cbn. destruct (fetchone_by_id i (authors store)); [done|].
  by destruct (int64 i).
Qed.

Lemma create_book_publisher_dangling now store b :
  dangling (BookCreate.author_id b) (authors store) = false →
  dangling (BookCreate.publisher_id b) (publishers store) = true →
  turned_down store (missing publishers_table (BookCreate.publisher_id b))
    (get_db now store (create_book b)).
Proof.
  unfold dangling, turned_down, missing, absent. run_handler.
  destruct (BookCreate.author_id b) as [i|],
           (BookCreate.publisher_id b) as [j|]; cbn; try done;
    repeat (destruct (fetchone_by_id _ _); cbn; try done);
    by destruct (int64 j).
Qed.

Lemma update_book_publisher_dangling now store ib b :
  is_Some (fetchone_by_id ib (books store)) →
  dangling (BookCreate.author_id b) (authors store) = false →
  dangling (BookCreate.publisher_id b) (publishers store) = true →
  turned_down store (missing publishers_table (BookCreate.publisher_id b))
    (get_db now store (update_book ib b)).
Proof.
  intros [row Hrow]. unfold dangling, turned_down, missing, absent.
  run_handler. rewrite Hrow.
  destruct (BookCreate.author_id b) as [i|],
           (BookCreate.publisher_id b) as [j|]; cbn; try done;
    repeat (destruct (fetchone_by_id _ _); cbn; try done);
    by destruct (int64 j).
Qed.

(** C2, as the code has it.  A book create, and a book update of an id
    that exists, with a dangling author_id that fits 64 bits is turned down
    with 404 "Author not found"; with an author reference that is NULL or
    resolves and a dangling publisher_id that fits 64 bits, with 404
    "Publisher not found".  Either way the store is unchanged and only
    SELECTs were run. *)
Theorem dangling_reference_rejected now store b :
  dangling (BookCreate.author_id b) (authors store)
  || dangling (BookCreate.publisher_id b) (publishers store) = true →
  bindable (if dangling (BookCreate.author_id b) (authors store)
            then BookCreate.author_id b else BookCreate.publisher_id b)
  = true →
  let detail := if dangling (BookCreate.author_id b) (authors store)
                then "Author not found" else "Publisher not found" in
  rejected store detail (get_db now store (create_book b))
  ∧ ∀ ib, is_Some (fetchone_by_id ib (books store)) →
          rejected store detail (get_db now store (update_book ib b)).
Proof.
  intros Hd Hfits.
  destruct (dangling (BookCreate.author_id b) (authors store)) eqn:Ha; cbn.
  - split; [|intros ib Hib].
    + rewrite create_book_author_dangling by done.
      by rewrite missing_bindable.
    + rewrite update_book_author_dangling by done.
      by rewrite missing_bindable.
  - cbn in Hd. split; [|intros ib Hib].
    + pose proof (create_book_publisher_dangling now store b Ha Hd) as H.
      by rewrite missing_bindable in H.
    + pose proof (update_book_publisher_dangling now store ib b Hib Ha Hd)
        as H.
      by rewrite missing_bindable in H.
Qed.

Lemma dangling_reference_rejected_sample :
  let store := sample sample_date in
  rejected store "Author not found"
    (get_db sample_date store
       (create_book (with_references (Some 9999) None untitled)))
  ∧ rejected store "Author not found"
      (get_db sample_date store
         (update_book 1 (with_references (Some 9999) (Some 9999) untitled)))
  ∧ rejected store "Publisher not found"
      (get_db sample_date store
         (update_book 1 (with_references (Some 1) (Some 9999) untitled))).
Proof.
  intros store.
  pose proof (dangling_reference_rejected sample_date store
                (with_references (Some 9999) None untitled)
                eq_refl eq_refl) as [H1 _].
  pose proof (dangling_reference_rejected sample_date store
                (with_references (Some 9999) (Some 9999) untitled)
                eq_refl eq_refl)
    as [_ H2].
  pose proof (dangling_reference_rejected sample_date store
                (with_references (Some 1) (Some 9999) untitled)
                eq_refl eq_refl)
    as [_ H3].
  split; [exact H1|].
  split; [apply (H2 1) | apply (H3 1)]; found.
Defined.

(** C2 as worded fails on an update of an id that is not there: the
    existence check of the book comes first and reports the book. *)
Lemma update_absent_book_dangling_author :
  let store := sample sample_date in
  let b := with_references (Some 9999) None untitled in
  BookCreate.author_id b = Some 9999
  ∧ fetchone_by_id 9999 (authors store) = None
  ∧ outcome (get_db sample_date store (update_book 9999 b))
    = Raise (HTTPException 404 "Book not found")
  ∧ outcome (get_db sample_date store (update_book 9999 b))
    ≠ Raise (HTTPException 404 "Author not found").
Proof. repeat split. vm_compute. discriminate. Qed.

(** C10, as the code has it.  When both references of a book are dangling
    and the author_id fits 64 bits, a create, and an update of an id that
    exists, report the author: the request ends at the author's SELECT and
    the publishers table is never queried. *)
Theorem author_checked_before_publisher now store b a p :
  BookCreate.author_id b = Some a →
  BookCreate.publisher_id b = Some p →
  fetchone_by_id a (authors store) = None →
  fetchone_by_id p (publishers store) = None →
  fits a →
  get_db now store (create_book b)
  = {| outcome := Raise (HTTPException 404 "Author not found");
       stored := store;
       statements := [SELECT authors_table] |}
  ∧ ∀ ib, is_Some (fetchone_by_id ib (books store)) →
      get_db now store (update_book ib b)
      = {| outcome := Raise (HTTPException 404 "Author not found");
           stored := store;
           statements := [SELECT books_table; SELECT authors_table] |}.
Proof.
  intros Ha _ Hna _ Hfits%int64_fits.
  assert (dangling (BookCreate.author_id b) (authors store) = true) as Hd.
  { unfold dangling. by rewrite Ha, Hna. }
  assert (missing authors_table (BookCreate.author_id b)
          = HTTPException 404 "Author not found") as Hm.
  { rewrite Ha. cbn. unfold absent. by rewrite Hfits. }
  split; [|intros ib Hib].
  - rewrite create_book_author_dangling by done. by rewrite Hm.
  - rewrite update_book_author_dangling by done. by rewrite Hm.
Qed.

Lemma author_checked_before_publisher_sample :
  let store := sample sample_date in
  let b := with_references (Some 9999) (Some 8888) untitled in
  outcome (get_db sample_date store (create_book b))
  = Raise (HTTPException 404 "Author not found")
  ∧ statements (get_db sample_date store (update_book 2 b))
    = [SELECT books_table; SELECT authors_table].
Proof.
  intros store b.
  assert (fits 9999) as Hfits by (unfold fits; lia).
  destruct (author_checked_before_publisher sample_date store b 9999 8888
              eq_refl eq_refl eq_refl eq_refl Hfits) as [Hc Hu].
  split.
  - rewrite Hc. reflexivity.
  - rewrite (Hu 2); [reflexivity | found].
Defined.

(** C10 as worded fails on an update of an id that is not there: neither
    reference is looked at and the book is reported. *)
Lemma update_absent_book_both_dangling :
  let store := sample sample_date in
  let b := with_references (Some 9999) (Some 8888) untitled in
  fetchone_by_id 9999 (authors store) = None
  ∧ fetchone_by_id 8888 (publishers store) = None
  ∧ get_db sample_date store (update_book 7777 b)
    = not_found store books_table "Book not found"
  ∧ outcome (get_db sample_date store (update_book 7777 b))
    ≠ Raise (HTTPException 404 "Author not found").
Proof. repeat split. vm_compute. discriminate. Qed.

(** ** Uniqueness conflicts *)

Lemma create_author_conflict now store a :
  unique_conflict Author.email None (AuthorCreate.email a) (authors store)
  = true →
  uncaught store "UNIQUE constraint failed: authors.email"
    (get_db now store (create_author a)).
Proof.
  intros Hc. unfold uncaught. run_handler. unfold insert_author.
  by rewrite Hc.
Qed.

Lemma update_author_conflict now store i a :
  is_Some (fetchone_by_id i (authors store)) →
  unique_conflict Author.email (Some i) (AuthorCreate.email a)
    (authors store) = true →
  uncaught store "UNIQUE constraint failed: authors.email"
    (get_db now store (update_author i a)).
Proof.
  intros [row Hrow] Hc. unfold uncaught. run_handler. rewrite Hrow. cbn.
  unfold update_author_row. rewrite Hrow, Hc.
  by rewrite bool_decide_true by eauto.
Qed.

Lemma create_publisher_conflict now store p :
  unique_conflict Publisher.email None (PublisherCreate.email p)
    (publishers store) = true →
  uncaught store "UNIQUE constraint failed: publishers.email"
    (get_db now store (create_publisher p)).
Proof.
  intros Hc. unfold uncaught. run_handler. unfold insert_publisher.
  by rewrite Hc.
Qed.

Lemma update_publisher_conflict now store i p :
  is_Some (fetchone_by_id i (publishers store)) →
  unique_conflict Publisher.email (Some i) (PublisherCreate.email p)
    (publishers store) = true →
  uncaught store "UNIQUE constraint failed: publishers.email"
    (get_db now store (update_publisher i p)).
Proof.
  intros [row Hrow] Hc. unfold uncaught. run_handler. rewrite Hrow. cbn.
  unfold update_publisher_row. rewrite Hrow, Hc.
  by rewrite bool_decide_true by eauto.
Qed.

Lemma create_book_conflict now store b :
  dangling (BookCreate.author_id b) (authors store) = false →
  dangling (BookCreate.publisher_id b) (publishers store) = false →
  unique_conflict Book.isbn None (BookCreate.isbn b) (books store) = true →
  uncaught store "UNIQUE constraint failed: books.isbn"
    (get_db now store (create_book b)).
Proof.
  unfold uncaught, dangling. intros Ha Hp Hc. run_handler.
  unfold insert_book.
  destruct (BookCreate.author_id b) as [ia|],
           (BookCreate.publisher_id b) as [ip|]; cbn;
    repeat (destruct (fetchone_by_id _ _); cbn; try done);
    by rewrite Hc.
Qed.

Lemma update_book_conflict now store i b :
  is_Some (fetchone_by_id i (books store)) →
  dangling (BookCreate.author_id b) (authors store) = false →
  dangling (BookCreate.publisher_id b) (publishers store) = false →
  unique_conflict Book.isbn (Some i) (BookCreate.isbn b) (books store)
  = true →
  uncaught store "UNIQUE constraint failed: books.isbn"
    (get_db now store (update_book i b)).
Proof.
  unfold uncaught, dangling. intros [row Hrow] Ha Hp Hc. run_handler.
  rewrite Hrow. cbn. unfold update_book_row.
  destruct (BookCreate.author_id b) as [ia|],
           (BookCreate.publisher_id b) as [ip|]; cbn;
    repeat (destruct (fetchone_by_id _ (authors _)); cbn; try done);
    repeat (destruct (fetchone_by_id _ (publishers _)); cbn; try done);
    rewrite Hrow, Hc; by rewrite bool_decide_true by eauto.
Qed.




(** ** Accepted writes *)

Lemma create_author_accepted now store a :
  unique_conflict Author.email None (AuthorCreate.email a) (authors store)
  = false →
  let row := Author.mk (next_rowid (seq_authors store) (authors store))
               (AuthorCreate.name a) (AuthorCreate.email a)
               (AuthorCreate.bio a) (Some now) in
  get_db now store (create_author a)
  = {| outcome := Return row;
       stored := Database (authors store ++ [row]) (publishers store)
                   (books store) (Author.id row) (seq_publishers store)
                   (seq_books store);
       statements := [INSERT authors_table; COMMIT; SELECT authors_table] |}.
Proof.
  intros Hc row. run_handler. unfold insert_author. rewrite Hc. cbn.
  by rewrite fetchone_appended.
Qed.

Lemma create_publisher_accepted now store p :
  unique_conflict Publisher.email None (PublisherCreate.email p)
    (publishers store) = false →
  let row := Publisher.mk
               (next_rowid (seq_publishers store) (publishers store))
               (PublisherCreate.name p) (PublisherCreate.address p)
               (PublisherCreate.phone p) (PublisherCreate.email p) in
  get_db now store (create_publisher p)
  = {| outcome := Return row;
       stored := Database (authors store) (publishers store ++ [row])
                   (books store) (seq_authors store) (Publisher.id row)
                   (seq_books store);
       statements := [INSERT publishers_table; COMMIT;
                      SELECT publishers_table] |}.
Proof.
  intros Hc row. run_handler. unfold insert_publisher. rewrite Hc. cbn.
  by rewrite fetchone_appended.
Qed.

Lemma create_book_accepted now store b :
  dangling (BookCreate.author_id b) (authors store) = false →
  dangling (BookCreate.publisher_id b) (publishers store) = false →
  unique_conflict Book.isbn None (BookCreate.isbn b) (books store) = false →
  let row := book_of (next_rowid (seq_books store) (books store))
               (columns b) in
  outcome (get_db now store (create_book b)) = Return row
  ∧ stored (get_db now store (create_book b))
    = Database (authors store) (publishers store) (books store ++ [row])
        (seq_authors store) (seq_publishers store) (Book.id row).
Proof.
  unfold dangling. intros Ha Hp Hc. run_handler. unfold insert_book.
  destruct (BookCreate.author_id b) as [ia|],
           (BookCreate.publisher_id b) as [ip|]; cbn;
    repeat (destruct (fetchone_by_id _ _); cbn; try done);
    rewrite Hc; cbn; by rewrite fetchone_appended.
Qed.

Lemma update_author_accepted now store i a old :
  fetchone_by_id i (authors store) = Some old →
  unique_conflict Author.email (Some i) (AuthorCreate.email a)
    (authors store) = false →
  let set := set_author (AuthorCreate.name a) (AuthorCreate.email a)
               (AuthorCreate.bio a) in
  get_db now store (update_author i a)
  = {| outcome := Return (set old);
       stored := Database (update_by_id i set (authors store))
                   (publishers store) (books store) (seq_authors store)
                   (seq_publishers store) (seq_books store);
       statements := [SELECT authors_table; UPDATE authors_table; COMMIT;
                      SELECT authors_table] |}.
Proof.
  intros Hold Hc set. run_handler. rewrite Hold. cbn.
  unfold update_author_row. rewrite Hc, andb_false_r. cbn.
  rewrite fetchone_update_by_id by done. by rewrite Hold.
Qed.

Lemma update_publisher_accepted now store i p old :
  fetchone_by_id i (publishers store) = Some old →
  unique_conflict Publisher.email (Some i) (PublisherCreate.email p)
    (publishers store) = false →
  let set := set_publisher (PublisherCreate.name p)
               (PublisherCreate.address p) (PublisherCreate.phone p)
               (PublisherCreate.email p) in
  get_db now store (update_publisher i p)
  = {| outcome := Return (set old);
       stored := Database (authors store)
                   (update_by_id i set (publishers store))
                   (books store) (seq_authors store)
                   (seq_publishers store) (seq_books store);
       statements := [SELECT publishers_table; UPDATE publishers_table;
                      COMMIT; SELECT publishers_table] |}.
Proof.
  intros Hold Hc set. run_handler. rewrite Hold. cbn.
  unfold update_publisher_row. rewrite Hc, andb_false_r. cbn.
  rewrite fetchone_update_by_id by done. by rewrite Hold.
Qed.

Lemma update_book_accepted now store i b old :
  fetchone_by_id i (books store) = Some old →
  dangling (BookCreate.author_id b) (authors store) = false →
  dangling (BookCreate.publisher_id b) (publishers store) = false →
  unique_conflict Book.isbn (Some i) (BookCreate.isbn b) (books store)
  = false →
  outcome (get_db now store (update_book i b)) = Return (set_book b old)
  ∧ stored (get_db now store (update_book i b))
    = Database (authors store) (publishers store)
        (update_by_id i (set_book b) (books store))
        (seq_authors store) (seq_publishers store) (seq_books store).
Proof.
  unfold dangling. intros Hold Ha Hp Hc. run_handler. rewrite Hold. cbn.
  unfold update_book_row.
  destruct (BookCreate.author_id b) as [ia|],
           (BookCreate.publisher_id b) as [ip|]; cbn;
    repeat (destruct (fetchone_by_id _ (authors _)); cbn; try done);
    repeat (destruct (fetchone_by_id _ (publishers _)); cbn; try done);
    rewrite Hc, andb_false_r; cbn;
    rewrite fetchone_update_by_id by done; by rewrite Hold.
Qed.

(** ** NULL references *)






(** ** Updates replace the whole record *)




(** ** Deleting a referenced author *)

Lemma elem_of_delete_by_id {R} `{!Row R} (i : Z) (rows : list R) (r : R) :
  r ∈ delete_by_id i rows ↔ r ∈ rows ∧ row_id r ≠ i.
Proof.
  unfold delete_by_id. rewrite !list_elem_of_In, filter_In.
  by rewrite negb_true_iff, Z.eqb_neq.
Qed.

Lemma read_book_found now store ib book :
  fetchone_by_id ib (books store) = Some book →
  outcome (get_db now store (read_book ib)) = Return book.
Proof. intros Hbook. run_handler. by rewrite Hbook. Qed.

(** C9. Deleting an author that a book refers to leaves the books table
    as it was; the book is still fetched afterwards, unchanged, author_id
    included.  When the author exists the delete succeeds: it takes the
    rows with that id out of the authors table and touches nothing else,
    so the book's author_id now dangles. *)
Theorem delete_author_keeps_books now later store ia ib book :
  fetchone_by_id ib (books store) = Some book →
  Book.author_id book = Some ia →
  let r := get_db now store (delete_author ia) in
  books (stored r) = books store
  ∧ outcome (get_db later (stored r) (read_book ib)) = Return book
  ∧ (is_Some (fetchone_by_id ia (authors store)) →
     outcome r
     = Return {| message := "Author " +:+ pretty ia
                            +:+ " deleted successfully" |}
     ∧ statements r = [SELECT authors_table; DELETE authors_table; COMMIT]
     ∧ stored r = set_authors (delete_by_id ia (authors store)) store
     ∧ (∀ a, a ∈ authors (stored r) ↔ a ∈ authors store ∧ Author.id a ≠ ia)
     ∧ dangling (Book.author_id book) (authors (stored r)) = true).
Proof.
  intros Hbook Href r.
  assert (stored r
          = match fetchone_by_id ia (authors store) with
            | Some _ => set_authors (delete_by_id ia (authors store)) store
            | None => store
            end) as Hstored.
  { subst r. run_handler.
    destruct (fetchone_by_id ia (authors store)); [done|].
    by destruct (int64 ia). }
  assert (books (stored r) = books store) as Hbooks.
  { rewrite Hstored. by destruct (fetchone_by_id ia (authors store)). }
  split; [done|]. split.
  - apply read_book_found. by rewrite Hbooks.
  - intros [row Hrow]. rewrite Hrow in Hstored. rewrite Hstored.
    repeat apply conj; try done.
    + subst r. run_handler. by rewrite Hrow.
    + subst r. run_handler. by rewrite Hrow.
    + intros a. apply elem_of_delete_by_id.
    + rewrite Href. cbn. by rewrite fetchone_delete_by_id.
Qed.

Lemma delete_author_keeps_books_sample :
  let store := sample sample_date in
  let r := get_db sample_date store (delete_author 1) in
  fetchone_by_id 1 (authors (stored r)) = None
  ∧ books (stored r) = books store
  ∧ (∃ book, outcome (get_db sample_date (stored r) (read_book 1))
             = Return book
             ∧ Book.author_id book = Some 1).
Proof.
  intros store r.
  destruct (delete_author_keeps_books sample_date sample_date store 1 1
              (book_of 1
                 (BookCreate.mk "Pride and Prejudice"
                    (Some "A romantic novel of manners")
                    (Some "9780141439518") (Some (Date 1813 1 28))
                    (Some 12.99%float) (Some "Classic") (Some 1) (Some 1)))
              eq_refl eq_refl)
    as (Hbooks & Hread & _).
  split; [reflexivity|]. split; [exact Hbooks|].
  eexists. split; [exact Hread | reflexivity].
Defined.

(** ** Listing books through filters *)

Lemma bindable_given i : bindable i = true → bindable (given_id i) = true.
Proof. destruct i as [i|]; [|done]. cbn. by destruct (i =? 0). Qed.

Lemma select_books_run now store conditions limit skip :
  get_db now store
    (execute (SELECT books_table) (select_books conditions limit skip))
  = {| outcome :=
         if forallb (λ c, from_option int64 true (bound c)) conditions
            && int64 limit && int64 skip
         then Return (limit_offset limit skip
                        (List.filter (λ r, forallb (holds r) conditions)
                           (books store)))
         else Raise overflow;
       stored := store;
       statements := [SELECT books_table] |}.
Proof. run_handler. by destruct (_ && int64 skip). Qed.

(** What a listing of books does, filters and paging parameters as they
    come. *)
Lemma read_books_run now store skip limit genre author_id publisher_id :
  get_db now store (read_books skip limit genre author_id publisher_id)
  = {| outcome :=
         if bindable (given_id author_id) && bindable (given_id publisher_id)
            && int64 limit && int64 skip
         then Return (limit_offset limit skip
                        (selected genre author_id publisher_id (books store)))
         else Raise overflow;
       stored := store;
       statements := [SELECT books_table] |}.
Proof.
  unfold read_books, selected, matches, given_string, given_id, bindable.
  destruct genre as [g|]; [destruct (bool_decide (g = ""))|];
    (destruct author_id as [i|]; [destruct (i =? 0)|]);
    (destruct publisher_id as [j|]; [destruct (j =? 0)|]);
    rewrite select_books_run;
    cbn [Datatypes.app forallb bound from_option andb];
    rewrite ?andb_true_r; f_equal;
    (destruct (_ && int64 skip); [|done]); do 2 f_equal;
    apply List.filter_ext; intros r; cbn;
    by rewrite ?andb_true_r, ?andb_assoc.
Qed.

Lemma read_books_selects now store skip limit genre author_id publisher_id :
  genre ≠ Some "" → author_id ≠ Some 0 → publisher_id ≠ Some 0 →
  bindable author_id = true → bindable publisher_id = true →
  fits limit → fits skip →
  get_db now store (read_books skip limit genre author_id publisher_id)
  = {| outcome := Return (limit_offset limit skip
                            (List.filter (matches genre author_id publisher_id)
                               (books store)));
       stored := store;
       statements := [SELECT books_table] |}.
Proof.
  intros Hg Ha Hp Hia Hip Hl%int64_fits Hs%int64_fits.
  rewrite read_books_run, !bindable_given, Hl, Hs by done. cbn.
  do 3 f_equal. unfold selected.
  assert (given_string genre = genre) as ->.
  { destruct genre as [g|]; [|done]. cbn. case_bool_decide; [by subst|done]. }
  assert (given_id author_id = author_id) as ->.
  { destruct author_id as [i|]; [|done]. cbn.
    destruct (Z.eqb_spec i 0); [by subst|done]. }
  assert (given_id publisher_id = publisher_id) as ->; [|done].
  destruct publisher_id as [i|]; [|done]. cbn.
  destruct (Z.eqb_spec i 0); [by subst|done].
Qed.

Lemma read_books_falsy now store skip limit :
  get_db now store (read_books skip limit (Some "") (Some 0) (Some 0))
  = get_db now store (read_books skip limit None None None).
Proof. done. Qed.

Lemma matches_sound genre author_id publisher_id r :
  matches genre author_id publisher_id r = true →
  (∀ g, genre = Some g → Book.genre r = Some g)
  ∧ (∀ i, author_id = Some i → Book.author_id r = Some i)
  ∧ (∀ i, publisher_id = Some i → Book.publisher_id r = Some i).
Proof.
  unfold matches. rewrite !andb_true_iff. intros [[Hg Ha] Hp].
  repeat split; intros x ->; by eapply bool_decide_eq_true.
Qed.

(** For the filter values the handler takes up, the listing is exact and
    conjunctive.  With each of genre, author_id and publisher_id either
    omitted or given and not empty (not zero), and every integer within 64
    bits, the listing is the page cut from the books that equal every given
    criterion: each returned row has the given genre, the given author_id
    and the given publisher_id, and with no criterion given every book is
    eligible. *)
Lemma read_books_exact_and_conjoined
    now store skip limit genre author_id publisher_id :
  genre ≠ Some "" → author_id ≠ Some 0 → publisher_id ≠ Some 0 →
  bindable author_id = true → bindable publisher_id = true →
  fits limit → fits skip →
  ∃ rows,
    outcome (get_db now store
               (read_books skip limit genre author_id publisher_id))
    = Return rows
    ∧ rows = limit_offset limit skip
               (List.filter (matches genre author_id publisher_id)
                  (books store))
    ∧ (∀ r, r ∈ rows →
         (∀ g, genre = Some g → Book.genre r = Some g)
         ∧ (∀ i, author_id = Some i → Book.author_id r = Some i)
         ∧ (∀ i, publisher_id = Some i → Book.publisher_id r = Some i))
    ∧ (genre = None → author_id = None → publisher_id = None →
       rows = limit_offset limit skip (books store)).
Proof.
  intros Hg Ha Hp Hia Hip Hl Hs. eexists. split; [|split; [reflexivity|split]].
  - by rewrite read_books_selects.
  - intros r Hr. apply matches_sound.
    eapply elem_of_sublist in Hr; [|apply limit_offset_sublist].
    by apply list_elem_of_In, filter_In in Hr as [_ Hr].
  - intros -> -> ->. f_equal. unfold matches. cbn.
    induction (books store) as [|r rows IH]; [done|]. cbn. by rewrite IH.
Qed.

(** C7. On three books of genres "Classic", "Dystopian" and "Classical",
    [genre="Classic"] together with [author_id=1] returns the one book that
    has exactly that genre and that author.  The claim is not met for the
    empty genre: [genre=""] is dropped from the WHERE clause and all three
    books come back, none of which has genre "". *)
Theorem empty_genre_filter_not_applied :
  let list genre author_id :=
    outcome (get_db sample_date classical_store
               (read_books 0 100 genre author_id None)) in
  Book.genre <$> books classical_store
  = [Some "Classic"; Some "Dystopian"; Some "Classical"]
  ∧ (∃ rows, list (Some "Classic") (Some 1) = Return rows
             ∧ Book.title <$> rows = ["Pride and Prejudice"])
  ∧ list (Some "") None = Return (books classical_store)
  ∧ List.filter (matches (Some "") None None) (books classical_store) = [].
Proof.
  intros list. split; [reflexivity|]. split; [|by split].
  destruct (read_books_exact_and_conjoined sample_date classical_store 0 100
              (Some "Classic") (Some 1) None)
    as (rows & Hout & Hrows & _);
    [done | done | done | done | done | unfold fits; lia..|].
  exists rows. split; [exact Hout|]. by rewrite Hrows.
Qed.

(** C1.  A filter value that is empty or zero is not applied: an empty
    genre and a zero author_id or publisher_id are dropped from the WHERE
    clause, so the request is answered like the one without them.  On the
    sample data [author_id=0] returns both books although no book has that
    author. *)
Theorem falsy_filters_are_dropped now :
  (∀ store skip limit,
     get_db now store (read_books skip limit (Some "") (Some 0) (Some 0))
     = get_db now store (read_books skip limit None None None))
  ∧ outcome (get_db now (sample now) (read_books 0 100 None (Some 0) None))
    = Return (books (sample now))
  ∧ length (books (sample now)) = 2%nat
  ∧ List.filter (matches None (Some 0) None) (books (sample now)) = [].
Proof. split; [apply read_books_falsy | by repeat split]. Qed.

(** ** Pagination *)

Lemma page_length {R} skip limit (rows : list R) :
  0 ≤ limit → Z.of_nat (length (page skip limit rows)) ≤ limit.
Proof. intros Hl. unfold page. rewrite length_take. lia. Qed.

Lemma filter_sublist {R} (f : R → bool) (rows : list R) :
  List.filter f rows `sublist_of` rows.
Proof.
  induction rows as [|r rows IH]; cbn; [constructor|].
  destruct (f r); by constructor.
Qed.

Lemma filter_all {R} (rows : list R) : List.filter (λ _, true) rows = rows.
Proof. induction rows as [|r rows IH]; cbn; by rewrite ?IH. Qed.

Lemma next_rowid_above_all {R} `{!Row R} seq (rows : list R) :
  Forall (λ r, row_id r < next_rowid seq rows) rows.
Proof. apply Forall_forall. intros r. apply next_rowid_above. Qed.

Lemma create_book_appends now store b row :
  outcome (get_db now store (create_book b)) = Return row →
  books (stored (get_db now store (create_book b))) = books store ++ [row]
  ∧ Forall (λ r, Book.id r < Book.id row) (books store).
Proof.
  destruct (dangling (BookCreate.author_id b) (authors store)) eqn:Ha.
  { by rewrite create_book_author_dangling. }
  destruct (dangling (BookCreate.publisher_id b) (publishers store)) eqn:Hp.
  { destruct (create_book_publisher_dangling now store b Ha Hp) as [-> _].
    done. }
  destruct (unique_conflict Book.isbn None (BookCreate.isbn b) (books store))
    eqn:Hc.
  { destruct (create_book_conflict now store b Ha Hp Hc) as [-> _].
    done. }
  destruct (create_book_accepted now store b Ha Hp Hc) as [-> ->].
  intros [= <-]. split; [done|]. apply next_rowid_above_all.
Qed.

Lemma create_author_appends now store a row :
  outcome (get_db now store (create_author a)) = Return row →
  authors (stored (get_db now store (create_author a)))
  = authors store ++ [row]
  ∧ Forall (λ r, Author.id r < Author.id row) (authors store).
Proof.
  destruct (unique_conflict Author.email None (AuthorCreate.email a)
              (authors store)) eqn:Hc.
  { by destruct (create_author_conflict now store a Hc) as [-> _]. }
  rewrite (create_author_accepted now store a Hc). cbn.
  intros [= <-]. split; [done|]. apply next_rowid_above_all.
Qed.

Lemma create_publisher_appends now store p row :
  outcome (get_db now store (create_publisher p)) = Return row →
  publishers (stored (get_db now store (create_publisher p)))
  = publishers store ++ [row]
  ∧ Forall (λ r, Publisher.id r < Publisher.id row) (publishers store).
Proof.
  destruct (unique_conflict Publisher.email None (PublisherCreate.email p)
              (publishers store)) eqn:Hc.
  { by destruct (create_publisher_conflict now store p Hc) as [-> _]. }
  rewrite (create_publisher_accepted now store p Hc). cbn.
  intros [= <-]. split; [done|]. apply next_rowid_above_all.
Qed.

(** C8, for limits that are not negative and parameters that fit 64 bits.
    Every list operation returns the page of its table: at most [limit]
    rows, after the first [skip], in table order; a created row goes to the
    end of the table under an id above all others, so this is creation
    order, and of two rows [skip=1, limit=1] returns the second.  A missing
    [skip] is 0 and a missing [limit] is 100.  For books the page is cut
    from the rows the filters select, which do not depend on [skip] and
    [limit] and keep the table order. *)
Theorem list_returns_page now store :
  (∀ skip limit, 0 ≤ limit → fits limit → fits skip →
     pages_of skip limit (authors store)
       (get_db now store (read_authors skip limit))
     ∧ pages_of skip limit (publishers store)
         (get_db now store (read_publishers skip limit)))
  ∧ (∀ genre author_id publisher_id,
       bindable author_id = true → bindable publisher_id = true →
       let filtered := selected genre author_id publisher_id (books store) in
       filtered `sublist_of` books store
       ∧ (genre = None → author_id = None → publisher_id = None →
          filtered = books store)
       ∧ ∀ skip limit, 0 ≤ limit → fits limit → fits skip →
           pages_of skip limit filtered
             (get_db now store
                (read_books skip limit genre author_id publisher_id)))
  ∧ (get_db now store (list_authors None None)
     = get_db now store (read_authors 0 100)
     ∧ get_db now store (list_publishers None None)
       = get_db now store (read_publishers 0 100)
     ∧ ∀ genre author_id publisher_id,
         get_db now store (list_books None None genre author_id publisher_id)
         = get_db now store (read_books 0 100 genre author_id publisher_id))
  ∧ ((∀ a row, outcome (get_db now store (create_author a)) = Return row →
        authors (stored (get_db now store (create_author a)))
        = authors store ++ [row]
        ∧ Forall (λ r, Author.id r < Author.id row) (authors store))
     ∧ (∀ p row, outcome (get_db now store (create_publisher p)) = Return row →
          publishers (stored (get_db now store (create_publisher p)))
          = publishers store ++ [row]
          ∧ Forall (λ r, Publisher.id r < Publisher.id row) (publishers store))
     ∧ (∀ b row, outcome (get_db now store (create_book b)) = Return row →
          books (stored (get_db now store (create_book b)))
          = books store ++ [row]
          ∧ Forall (λ r, Book.id r < Book.id row) (books store)))
  ∧ ((∀ r1 r2, authors store = [r1; r2] →
        outcome (get_db now store (read_authors 1 1)) = Return [r2])
     ∧ (∀ r1 r2, publishers store = [r1; r2] →
          outcome (get_db now store (read_publishers 1 1)) = Return [r2])
     ∧ (∀ r1 r2, books store = [r1; r2] →
          outcome (get_db now store (read_books 1 1 None None None))
          = Return [r2])).
Proof.
  split; [|split; [|split; [|split]]].
  - intros skip limit Hl Hfl%int64_fits Hfs%int64_fits.
    split; eexists; run_handler; rewrite Hfl, Hfs; cbn;
      (split; [by rewrite limit_offset_nonneg|]);
      (split; [done | by apply page_length]).
  - intros genre author_id publisher_id Ha Hp filtered.
    split; [apply filter_sublist|]. split.
    + intros -> -> ->. apply filter_all.
    + intros skip limit Hl Hfl%int64_fits Hfs%int64_fits. eexists.
      rewrite read_books_run, !bindable_given, Hfl, Hfs by done. cbn.
      split; [by rewrite limit_offset_nonneg|].
      split; [reflexivity | by apply page_length].
  - by repeat split.
  - split; [|split].
    + apply create_author_appends.
    + apply create_publisher_appends.
    + apply create_book_appends.
  - repeat split; intros r1 r2 Hrows; run_handler; by rewrite Hrows.
Qed.

Lemma list_returns_page_sample :
  let store := sample sample_date in
  (∃ l, outcome (get_db sample_date store (read_authors 1 1)) = Return l
        ∧ Author.name <$> l = ["George Orwell"])
  ∧ (∃ l, outcome (get_db sample_date store
                     (read_books 1 5 None None None)) = Return l
          ∧ Book.title <$> l = ["1984"]).
Proof.
  intros store.
  destruct (list_returns_page sample_date store) as (Hlist & Hbooks & _).
  destruct (Hlist 1 1) as [(l & Hout & Hl & _) _];
    [lia | unfold fits; lia | unfold fits; lia |].
  destruct (Hbooks None None None eq_refl eq_refl) as (_ & Hall & Hpage).
  destruct (Hpage 1 5) as (l' & Hout' & Hl' & _);
    [lia | unfold fits; lia | unfold fits; lia |].
  split.
  - exists l. split; [exact Hout|]. rewrite Hl. reflexivity.
  - exists l'. split; [exact Hout'|]. rewrite Hl', Hall by reflexivity.
    reflexivity.
Defined.

(** C8 as worded fails for a negative limit, which the handlers pass on
    as they get it: the store then puts no bound on the rows. *)
Lemma negative_limit_is_no_limit :
  let store := sample sample_date in
  ∃ l, outcome (get_db sample_date store (read_authors 0 (-1))) = Return l
       ∧ length l = 2%nat
       ∧ ¬ Z.of_nat (length l) ≤ -1.
Proof.
  intros store. eexists.
  split; [reflexivity|]. split; [reflexivity|]. cbn. lia.
Qed.

(** * Further properties of the handlers *)

(** ** More on rows *)

Section row_facts.
Context {R : Type} `{!Row R}.
Implicit Types (rows : list R) (i j seq : Z) (f : R → R).

Lemma fetchone_update_other i j f rows :
  i ≠ j → (∀ r, row_id (f r) = row_id r) →
  fetchone_by_id j (update_by_id i f rows) = fetchone_by_id j rows.
Proof.
  intros Hne Hid. unfold fetchone_by_id, update_by_id.
  induction rows as [|r rows IH]; [done|].
  cbn. destruct (Z.eqb_spec (row_id r) i) as [Hi|Hi].
  - rewrite Hid. destruct (Z.eqb_spec (row_id r) j); [lia | done].
  - by destruct (row_id r =? j).
Qed.

Lemma fetchone_delete_other i j rows :
  i ≠ j → fetchone_by_id j (delete_by_id i rows) = fetchone_by_id j rows.
Proof.
  intros Hne. unfold fetchone_by_id, delete_by_id.
  induction rows as [|r rows IH]; [done|].
  cbn. destruct (Z.eqb_spec (row_id r) i) as [Hi|Hi]; cbn.
  - destruct (Z.eqb_spec (row_id r) j); [lia | done].
  - by destruct (row_id r =? j).
Qed.

Lemma fetchone_app_other j rows r :
  row_id r ≠ j → fetchone_by_id j (rows ++ [r]) = fetchone_by_id j rows.
Proof.
  intros Hne. unfold fetchone_by_id.
  induction rows as [|r' rows IH]; cbn.
  - by destruct (Z.eqb_spec (row_id r) j).
  - by destruct (row_id r' =? j).
Qed.

Lemma fetchone_app_found j rows r :
  is_Some (fetchone_by_id j rows) →
  fetchone_by_id j (rows ++ [r]) = fetchone_by_id j rows.
Proof.
  unfold fetchone_by_id. intros [x Hx].
  induction rows as [|r' rows IH]; cbn in *; [done|].
  destruct (row_id r' =? j); [done | by apply IH].
Qed.

Lemma update_by_id_ids i f rows :
  (∀ r, row_id (f r) = row_id r) →
  row_id <$> update_by_id i f rows = row_id <$> rows.
Proof.
  intros Hid. unfold update_by_id. rewrite <- list_fmap_compose.
  apply list_fmap_ext. intros k r _. cbn. by destruct (row_id r =? i).
Qed.

Lemma update_by_id_twice i f rows :
  (∀ r, row_id (f r) = row_id r) → (∀ r, f (f r) = f r) →
  update_by_id i f (update_by_id i f rows) = update_by_id i f rows.
Proof.
  intros Hid Hff. unfold update_by_id. rewrite <- list_fmap_compose.
  apply list_fmap_ext. intros k r _. cbn.
  destruct (Z.eqb_spec (row_id r) i) as [Hi|Hi].
  - rewrite Hid. destruct (Z.eqb_spec (row_id r) i); [by rewrite Hff | done].
  - by destruct (Z.eqb_spec (row_id r) i).
Qed.

Lemma is_Some_fetchone_update i j f rows :
  (∀ r, row_id (f r) = row_id r) →
  is_Some (fetchone_by_id j (update_by_id i f rows))
  ↔ is_Some (fetchone_by_id j rows).
Proof.
  intros Hid. destruct (decide (i = j)) as [->|Hne].
  - rewrite fetchone_update_by_id by done. by rewrite fmap_is_Some.
  - by rewrite fetchone_update_other.
Qed.

(** ** Keys *)

Lemma keys_ok_counter seq rows r :
  keys_ok seq rows → r ∈ rows → 0 < row_id r ≤ seq.
Proof. intros [_ Hall] Hin. by eapply Forall_forall in Hall. Qed.

Lemma foldr_max_bound (m : Z) rows :
  0 ≤ m → Forall (λ r, row_id r ≤ m) rows →
  foldr Z.max 0 (row_id <$> rows) ≤ m.
Proof.
  intros Hm Hall. induction Hall as [|r rows Hr _ IH]; [done|].
  rewrite fmap_cons, foldr_cons. lia.
Qed.

Lemma next_rowid_grows seq rows : seq < next_rowid seq rows.
Proof. unfold next_rowid. lia. Qed.

Lemma sorted_snoc (ids : list Z) (n : Z) :
  StronglySorted Z.lt ids → Forall (λ x, x < n) ids →
  StronglySorted Z.lt (ids ++ [n]).
Proof.
  induction 1 as [|x ids Hs IH Hx]; intros Hn; cbn.
  - repeat constructor.
  - apply Forall_cons in Hn as [Hxn Hn]. constructor; [by apply IH|].
    apply Forall_app. split; [done | by repeat constructor].
Qed.

Lemma keys_ok_append seq rows r :
  keys_ok seq rows → row_id r = next_rowid seq rows →
  keys_ok (next_rowid seq rows) (rows ++ [r]).
Proof.
  intros [Hsorted Hall] Hr. pose proof (next_rowid_grows seq rows) as Hg.
  split.
  - rewrite fmap_app. cbn. apply sorted_snoc; [done|].
    apply Forall_fmap. eapply Forall_impl; [exact Hall|]. cbn. lia.
  - apply Forall_app. split.
    + eapply Forall_impl; [exact Hall|]. cbn. lia.
    + repeat constructor; rewrite Hr; [|lia].
      pose proof (next_rowid_positive seq rows). lia.
Qed.

Lemma keys_ok_update seq i f rows :
  (∀ r, row_id (f r) = row_id r) →
  keys_ok seq rows → keys_ok seq (update_by_id i f rows).
Proof.
  intros Hid [Hsorted Hall]. split.
  - by rewrite update_by_id_ids.
  - unfold update_by_id. apply Forall_fmap.
    eapply Forall_impl; [exact Hall|]. cbn. intros r Hr.
    destruct (row_id r =? i); [by rewrite Hid | done].
Qed.

Lemma sorted_filter (P : Z → bool) (ids : list Z) :
  StronglySorted Z.lt ids → StronglySorted Z.lt (List.filter P ids).
Proof.
  induction 1 as [|x ids Hs IH Hx]; cbn; [constructor|].
  destruct (P x); [|done]. constructor; [done|].
  apply Forall_forall. intros y Hy.
  apply list_elem_of_In, filter_In in Hy as [Hy _].
  eapply Forall_forall in Hx; [done | by apply list_elem_of_In].
Qed.

Lemma delete_by_id_ids i rows :
  row_id <$> delete_by_id i rows
  = List.filter (λ x, negb (x =? i)) (row_id <$> rows).
Proof.
  unfold delete_by_id. induction rows as [|r rows IH]; [done|].
  cbn. destruct (row_id r =? i); cbn; by rewrite ?fmap_cons, IH.
Qed.

Lemma keys_ok_delete seq i rows :
  keys_ok seq rows → keys_ok seq (delete_by_id i rows).
Proof.
  intros [Hsorted Hall]. split.
  - rewrite delete_by_id_ids. by apply sorted_filter.
  - apply Forall_forall. intros r Hr.
    apply elem_of_delete_by_id in Hr as [Hr _].
    by eapply Forall_forall in Hall.
Qed.

(** With keys in order a rowid names one row. *)
Lemma keys_ok_fetchone seq rows r :
  keys_ok seq rows → r ∈ rows → fetchone_by_id (row_id r) rows = Some r.
Proof.
  intros [Hsorted _]. unfold fetchone_by_id.
  induction rows as [|r' rows IH]; intros Hin; [by apply elem_of_nil in Hin|].
  rewrite fmap_cons in Hsorted.
  apply StronglySorted_inv in Hsorted as [Hs Hlt].
  cbn. apply elem_of_cons in Hin as [->|Hin].
  - by rewrite Z.eqb_refl.
  - destruct (Z.eqb_spec (row_id r') (row_id r)) as [Heq|Hne];
      [|by apply IH].
    exfalso. eapply Forall_forall in Hlt;
      [|apply list_elem_of_fmap; by exists r]. lia.
Qed.

Lemma keys_ok_same_row seq rows r1 r2 :
  keys_ok seq rows → r1 ∈ rows → r2 ∈ rows →
  row_id r1 = row_id r2 → r1 = r2.
Proof.
  intros Hk H1 H2 Heq.
  pose proof (keys_ok_fetchone _ _ _ Hk H1) as F1.
  pose proof (keys_ok_fetchone _ _ _ Hk H2) as F2.
  rewrite Heq in F1. congruence.
Qed.

(** ** UNIQUE columns *)

Lemma unique_conflict_false col self s rows :
  unique_conflict col self (Some s) rows = false
  ↔ ∀ r, r ∈ rows → col r = Some s → self = Some (row_id r).
Proof.
  unfold unique_conflict. split.
  - intros Hf r Hin Hcol.
    destruct (decide (self = Some (row_id r))) as [|Hne]; [done|].
    exfalso. apply not_true_iff_false in Hf. apply Hf.
    apply existsb_exists. exists r. split; [by apply list_elem_of_In|].
    by rewrite bool_decide_true, bool_decide_false.
  - intros Hall. apply not_true_iff_false. intros Hex.
    apply existsb_exists in Hex as (r & Hin & Hb).
    apply andb_true_iff in Hb as [Hc Hs].
    apply bool_decide_eq_true in Hc. apply negb_true_iff in Hs.
    apply bool_decide_eq_false in Hs. apply Hs.
    apply Hall; [by apply list_elem_of_In | done].
Qed.

Lemma unique_ok_append col rows r :
  unique_ok col rows → unique_conflict col None (col r) rows = false →
  unique_ok col (rows ++ [r]).
Proof.
  intros Hu Hc r1 r2 s H1 H2 C1 C2.
  apply elem_of_app in H1 as [H1|H1], H2 as [H2|H2];
    rewrite ?list_elem_of_singleton in *; subst; try done.
  - by eapply Hu.
  - rewrite C2 in Hc. by apply (unique_conflict_false col None s rows) in C1.
  - rewrite C1 in Hc. by apply (unique_conflict_false col None s rows) in C2.
Qed.

Lemma unique_ok_update col i v f rows :
  (∀ r, row_id (f r) = row_id r) → (∀ r, col (f r) = v) →
  unique_ok col rows → unique_conflict col (Some i) v rows = false →
  unique_ok col (update_by_id i f rows).
Proof.
  intros Hid Hcol Hu Hc r1 r2 s H1 H2 C1 C2. unfold update_by_id in *.
  apply list_elem_of_fmap in H1 as (x1 & -> & H1).
  apply list_elem_of_fmap in H2 as (x2 & -> & H2).
  destruct (Z.eqb_spec (row_id x1) i) as [E1|E1],
           (Z.eqb_spec (row_id x2) i) as [E2|E2];
    rewrite ?Hid; try lia.
  - rewrite Hcol in C1. subst v.
    apply (unique_conflict_false col (Some i) s rows) in C2; [|done..].
    congruence.
  - rewrite Hcol in C2. subst v.
    apply (unique_conflict_false col (Some i) s rows) in C1; [|done..].
    congruence.
  - by eapply Hu.
Qed.

Lemma unique_ok_delete col i rows :
  unique_ok col rows → unique_ok col (delete_by_id i rows).
Proof.
  intros Hu r1 r2 s H1 H2.
  apply elem_of_delete_by_id in H1 as [H1 _], H2 as [H2 _]. by apply Hu.
Qed.

(** A row's own value never conflicts with its own update. *)
Lemma unique_ok_own col seq rows r :
  keys_ok seq rows → unique_ok col rows → r ∈ rows →
  unique_conflict col (Some (row_id r)) (col r) rows = false.
Proof.
  intros Hk Hu Hin. destruct (col r) as [s|] eqn:Hcol; [|done].
  apply unique_conflict_false. intros r' Hin' Hcol'.
  f_equal. by eapply Hu.
Qed.

Lemma unique_conflict_update col i v f rows :
  (∀ r, row_id (f r) = row_id r) → (∀ r, col (f r) = v) →
  unique_conflict col (Some i) v rows = false →
  unique_conflict col (Some i) v (update_by_id i f rows) = false.
Proof.
  intros Hid Hcol Hc. destruct v as [s|]; [|done].
  apply unique_conflict_false. intros r Hin Hr.
  unfold update_by_id in Hin.
  apply list_elem_of_fmap in Hin as (x & -> & Hin).
  destruct (Z.eqb_spec (row_id x) i) as [E|E].
  - by rewrite Hid, E.
  - by apply (unique_conflict_false col (Some i) s rows) in Hr.
Qed.
End row_facts.

(** ** What each write does *)

Lemma summary_reply {A} now store (wrap : A → body) (handler : M A) :
  summary (get_db now store (reply wrap handler))
  = (match outcome (get_db now store handler) with
     | Return a => Return (wrap a)
     | Raise e => Raise e
     end,
     stored (get_db now store handler)).
Proof.
  unfold summary. run_handler.
  by destruct (handler _) as [[a|e] c].
Qed.

Lemma statements_reply {A} now store (wrap : A → body) (handler : M A) :
  statements (get_db now store (reply wrap handler))
  = statements (get_db now store handler).
Proof.
  run_handler. by destruct (handler _) as [[a|e] c].
Qed.

Lemma create_author_summary now store a :
  summary (get_db now store (create_author a))
  = if unique_conflict Author.email None (AuthorCreate.email a)
         (authors store)
    then (Raise (IntegrityError "UNIQUE constraint failed: authors.email"),
          store)
    else
      let row := Author.mk (next_rowid (seq_authors store) (authors store))
                   (AuthorCreate.name a) (AuthorCreate.email a)
                   (AuthorCreate.bio a) (Some now) in
      (Return row,
       Database (authors store ++ [row]) (publishers store) (books store)
         (Author.id row) (seq_publishers store) (seq_books store)).
Proof.
  destruct (unique_conflict _ _ _ _) eqn:Hc.
  - by destruct (create_author_conflict now store a Hc) as (Ho & Hs & _);
      unfold summary; rewrite Ho, Hs.
  - by rewrite (create_author_accepted now store a Hc).
Qed.

Lemma update_author_summary now store i a :
  summary (get_db now store (update_author i a))
  = match fetchone_by_id i (authors store) with
    | None => (Raise (absent authors_table i), store)
    | Some old =>
        if unique_conflict Author.email (Some i) (AuthorCreate.email a)
             (authors store)
        then (Raise (IntegrityError "UNIQUE constraint failed: authors.email"),
              store)
        else
          let set := set_author (AuthorCreate.name a) (AuthorCreate.email a)
                       (AuthorCreate.bio a) in
          (Return (set old),
           Database (update_by_id i set (authors store)) (publishers store)
             (books store) (seq_authors store) (seq_publishers store)
             (seq_books store))
    end.
Proof.
  destruct (fetchone_by_id i (authors store)) as [old|] eqn:Hold.
  - destruct (unique_conflict _ _ _ _) eqn:Hc.
    + by destruct (update_author_conflict now store i a) as (Ho & Hs & _);
        [eauto | done |]; unfold summary; rewrite Ho, Hs.
    + by rewrite (update_author_accepted now store i a old).
  - unfold summary, absent. run_handler. rewrite Hold.
    by destruct (int64 i).
Qed.

Lemma delete_author_summary now store i :
  summary (get_db now store (delete_author i))
  = match fetchone_by_id i (authors store) with
    | None => (Raise (absent authors_table i), store)
    | Some _ =>
        (Return {| message := "Author " +:+ pretty i
                              +:+ " deleted successfully" |},
         set_authors (delete_by_id i (authors store)) store)
    end.
Proof.
  unfold summary, absent. run_handler.
  destruct (fetchone_by_id i (authors store)); [done|]. by destruct (int64 i).
Qed.

Lemma create_publisher_summary now store p :
  summary (get_db now store (create_publisher p))
  = if unique_conflict Publisher.email None (PublisherCreate.email p)
         (publishers store)
    then (Raise (IntegrityError
                   "UNIQUE constraint failed: publishers.email"), store)
    else
      let row := Publisher.mk
                   (next_rowid (seq_publishers store) (publishers store))
                   (PublisherCreate.name p) (PublisherCreate.address p)
                   (PublisherCreate.phone p) (PublisherCreate.email p) in
      (Return row,
       Database (authors store) (publishers store ++ [row]) (books store)
         (seq_authors store) (Publisher.id row) (seq_books store)).
Proof.
  destruct (unique_conflict _ _ _ _) eqn:Hc.
  - by destruct (create_publisher_conflict now store p Hc) as (Ho & Hs & _);
      unfold summary; rewrite Ho, Hs.
  - by rewrite (create_publisher_accepted now store p Hc).
Qed.

Lemma update_publisher_summary now store i p :
  summary (get_db now store (update_publisher i p))
  = match fetchone_by_id i (publishers store) with
    | None => (Raise (absent publishers_table i), store)
    | Some old =>
        if unique_conflict Publisher.email (Some i) (PublisherCreate.email p)
             (publishers store)
        then (Raise (IntegrityError
                       "UNIQUE constraint failed: publishers.email"), store)
        else
          let set := set_publisher (PublisherCreate.name p)
                       (PublisherCreate.address p) (PublisherCreate.phone p)
                       (PublisherCreate.email p) in
          (Return (set old),
           Database (authors store) (update_by_id i set (publishers store))
             (books store) (seq_authors store) (seq_publishers store)
             (seq_books store))
    end.
Proof.
  destruct (fetchone_by_id i (publishers store)) as [old|] eqn:Hold.
  - destruct (unique_conflict _ _ _ _) eqn:Hc.
    + by destruct (update_publisher_conflict now store i p) as (Ho & Hs & _);
        [eauto | done |]; unfold summary; rewrite Ho, Hs.
    + by rewrite (update_publisher_accepted now store i p old).
  - unfold summary, absent. run_handler. rewrite Hold.
    by destruct (int64 i).
Qed.

Lemma delete_publisher_summary now store i :
  summary (get_db now store (delete_publisher i))
  = match fetchone_by_id i (publishers store) with
    | None => (Raise (absent publishers_table i), store)
    | Some _ =>
        (Return {| message := "Publisher " +:+ pretty i
                              +:+ " deleted successfully" |},
         set_publishers (delete_by_id i (publishers store)) store)
    end.
Proof.
  unfold summary, absent. run_handler.
  destruct (fetchone_by_id i (publishers store)); [done|]. by destruct (int64 i).
Qed.

Lemma create_book_summary now store b :
  summary (get_db now store (create_book b))
  = if dangling (BookCreate.author_id b) (authors store)
    then (Raise (missing authors_table (BookCreate.author_id b)), store)
    else if dangling (BookCreate.publisher_id b) (publishers store)
    then (Raise (missing publishers_table (BookCreate.publisher_id b)), store)
    else if unique_conflict Book.isbn None (BookCreate.isbn b) (books store)
    then (Raise (IntegrityError "UNIQUE constraint failed: books.isbn"),
          store)
    else
      let row := book_of (next_rowid (seq_books store) (books store))
                   (columns b) in
      (Return row,
       Database (authors store) (publishers store) (books store ++ [row])
         (seq_authors store) (seq_publishers store) (Book.id row)).
Proof.
  destruct (dangling (BookCreate.author_id b) _) eqn:Ha.
  { by rewrite create_book_author_dangling. }
  destruct (dangling (BookCreate.publisher_id b) _) eqn:Hp.
  { destruct (create_book_publisher_dangling now store b Ha Hp)
      as (Ho & Hs & _). unfold summary. by rewrite Ho, Hs. }
  destruct (unique_conflict _ _ _ _) eqn:Hc.
  { destruct (create_book_conflict now store b Ha Hp Hc) as (Ho & Hs & _).
    unfold summary. by rewrite Ho, Hs. }
  destruct (create_book_accepted now store b Ha Hp Hc) as (Ho & Hs).
  unfold summary. by rewrite Ho, Hs.
Qed.

Lemma update_book_summary now store i b :
  summary (get_db now store (update_book i b))
  = match fetchone_by_id i (books store) with
    | None => (Raise (absent books_table i), store)
    | Some old =>
        if dangling (BookCreate.author_id b) (authors store)
        then (Raise (missing authors_table (BookCreate.author_id b)), store)
        else if dangling (BookCreate.publisher_id b) (publishers store)
        then (Raise (missing publishers_table (BookCreate.publisher_id b)),
              store)
        else if unique_conflict Book.isbn (Some i) (BookCreate.isbn b)
                  (books store)
        then (Raise (IntegrityError "UNIQUE constraint failed: books.isbn"),
              store)
        else
          (Return (set_book b old),
           Database (authors store) (publishers store)
             (update_by_id i (set_book b) (books store))
             (seq_authors store) (seq_publishers store) (seq_books store))
    end.
Proof.
  destruct (fetchone_by_id i (books store)) as [old|] eqn:Hold; last first.
  { unfold summary, absent. run_handler. rewrite Hold.
    by destruct (int64 i). }
  assert (is_Some (fetchone_by_id i (books store))) as Hi by eauto.
  destruct (dangling (BookCreate.author_id b) _) eqn:Ha.
  { by rewrite update_book_author_dangling. }
  destruct (dangling (BookCreate.publisher_id b) _) eqn:Hp.
  { destruct (update_book_publisher_dangling now store i b Hi Ha Hp)
      as (Ho & Hs & _). unfold summary. by rewrite Ho, Hs. }
  destruct (unique_conflict _ _ _ _) eqn:Hc.
  { destruct (update_book_conflict now store i b Hi Ha Hp Hc)
      as (Ho & Hs & _). unfold summary. by rewrite Ho, Hs. }
  destruct (update_book_accepted now store i b old Hold Ha Hp Hc)
    as (Ho & Hs).
  unfold summary. by rewrite Ho, Hs.
Qed.

Lemma delete_book_summary now store i :
  summary (get_db now store (delete_book i))
  = match fetchone_by_id i (books store) with
    | None => (Raise (absent books_table i), store)
    | Some _ =>
        (Return {| message := "Book " +:+ pretty i
                              +:+ " deleted successfully" |},
         Database (authors store) (publishers store)
           (delete_by_id i (books store))
           (seq_authors store) (seq_publishers store) (seq_books store))
    end.
Proof.
  unfold summary, absent. run_handler.
  destruct (fetchone_by_id i (books store)); [done|]. by destruct (int64 i).
Qed.

Lemma stored_summary {A} (r : Response A) : stored r = (summary r).2.
Proof. done. Qed.

Lemma outcome_summary {A} (r : Response A) : outcome r = (summary r).1.
Proof. done. Qed.

Lemma read_authors_run now store skip limit :
  get_db now store (read_authors skip limit)
  = {| outcome := if int64 limit && int64 skip
                  then Return (limit_offset limit skip (authors store))
                  else Raise overflow;
       stored := store;
       statements := [SELECT authors_table] |}.
Proof. run_handler. by destruct (int64 limit && int64 skip). Qed.

Lemma read_publishers_run now store skip limit :
  get_db now store (read_publishers skip limit)
  = {| outcome := if int64 limit && int64 skip
                  then Return (limit_offset limit skip (publishers store))
                  else Raise overflow;
       stored := store;
       statements := [SELECT publishers_table] |}.
Proof. run_handler. by destruct (int64 limit && int64 skip). Qed.

Lemma list_authors_run now store skip limit :
  get_db now store (list_authors skip limit)
  = {| outcome := if int64 (default 100 limit) && int64 (default 0 skip)
                  then Return (limit_offset (default 100 limit)
                                 (default 0 skip) (authors store))
                  else Raise overflow;
       stored := store;
       statements := [SELECT authors_table] |}.
Proof. apply read_authors_run. Qed.

Lemma list_publishers_run now store skip limit :
  get_db now store (list_publishers skip limit)
  = {| outcome := if int64 (default 100 limit) && int64 (default 0 skip)
                  then Return (limit_offset (default 100 limit)
                                 (default 0 skip) (publishers store))
                  else Raise overflow;
       stored := store;
       statements := [SELECT publishers_table] |}.
Proof. apply read_publishers_run. Qed.

Lemma list_books_run now store skip limit genre author_id publisher_id :
  get_db now store (list_books skip limit genre author_id publisher_id)
  = {| outcome :=
         if bindable (given_id author_id) && bindable (given_id publisher_id)
            && int64 (default 100 limit) && int64 (default 0 skip)
         then Return (limit_offset (default 100 limit) (default 0 skip)
                        (selected genre author_id publisher_id (books store)))
         else Raise overflow;
       stored := store;
       statements := [SELECT books_table] |}.
Proof. apply read_books_run. Qed.

Lemma read_author_run now store i :
  get_db now store (read_author i)
  = {| outcome := match fetchone_by_id i (authors store) with
                  | Some r => Return r
                  | None => Raise (absent authors_table i)
                  end;
       stored := store;
       statements := [SELECT authors_table] |}.
Proof.
  unfold absent. run_handler.
  destruct (fetchone_by_id i (authors store)); [done|]. by destruct (int64 i).
Qed.

Lemma read_publisher_run now store i :
  get_db now store (read_publisher i)
  = {| outcome := match fetchone_by_id i (publishers store) with
                  | Some r => Return r
                  | None => Raise (absent publishers_table i)
                  end;
       stored := store;
       statements := [SELECT publishers_table] |}.
Proof.
  unfold absent. run_handler.
  destruct (fetchone_by_id i (publishers store)); [done|]. by destruct (int64 i).
Qed.

Lemma read_book_run now store i :
  get_db now store (read_book i)
  = {| outcome := match fetchone_by_id i (books store) with
                  | Some r => Return r
                  | None => Raise (absent books_table i)
                  end;
       stored := store;
       statements := [SELECT books_table] |}.
Proof.
  unfold absent. run_handler.
  destruct (fetchone_by_id i (books store)); [done|]. by destruct (int64 i).
Qed.

Lemma stored_reply {A} now store (wrap : A → body) (handler : M A) :
  stored (get_db now store (reply wrap handler))
  = stored (get_db now store handler).
Proof. rewrite stored_summary. by rewrite summary_reply. Qed.

Lemma outcome_reply {A} now store (wrap : A → body) (handler : M A) :
  outcome (get_db now store (reply wrap handler))
  = match outcome (get_db now store handler) with
    | Return a => Return (wrap a)
    | Raise e => Raise e
    end.
Proof. rewrite outcome_summary. by rewrite summary_reply. Qed.

(** ** The store stays well formed *)

Lemma set_author_id n e b r : row_id (set_author n e b r) = row_id r.
Proof. done. Qed.

Lemma set_publisher_id n a ph e r :
  row_id (set_publisher n a ph e r) = row_id r.
Proof. done. Qed.

Lemma set_book_id b r : row_id (set_book b r) = row_id r.
Proof. done. Qed.

Lemma REAL_kept (p : option float) : (p ≫= REAL) ≫= REAL = p ≫= REAL.
Proof.
  destruct p as [p|]; [|done]. cbn.
  destruct (REAL p) as [q|] eqn:Hq; [|done]. cbn.
  unfold REAL in Hq.
  destruct (PrimFloat.is_nan p) eqn:Hn; [done|].
  destruct (PrimFloat.eqb p 0) eqn:Hz; injection Hq as <-; [done|].
  unfold REAL. by rewrite Hn, Hz.
Qed.

Lemma prices_ok_append rows i b :
  prices_ok rows → prices_ok (rows ++ [book_of i (columns b)]).
Proof.
  intros Hok. apply Forall_app. split; [done|].
  repeat constructor. apply REAL_kept.
Qed.

Lemma prices_ok_update rows i b :
  prices_ok rows → prices_ok (update_by_id i (set_book b) rows).
Proof.
  intros Hok. unfold update_by_id. apply Forall_fmap.
  eapply Forall_impl; [exact Hok|]. cbn. intros r Hr.
  destruct (row_id r =? i); [apply REAL_kept | done].
Qed.

Lemma prices_ok_delete rows i :
  prices_ok rows → prices_ok (delete_by_id i rows).
Proof.
  intros Hok. apply Forall_forall. intros r Hr.
  apply elem_of_delete_by_id in Hr as [Hr _].
  by eapply Forall_forall in Hok.
Qed.

Lemma well_formed_app now store req :
  well_formed store → well_formed (stored (get_db now store (app req))).
Proof.
  intros ((Ka & Ua) & (Kp & Up) & (Kb & Ub & Pb)).
  destruct req; cbn [app]; rewrite stored_reply;
    rewrite ?list_authors_run, ?list_publishers_run, ?list_books_run,
      ?read_author_run, ?read_publisher_run, ?read_book_run; try done.
  - by_summary (create_author_summary now store author); [done|].
    split; [split|done].
    + by apply keys_ok_append.
    + by apply unique_ok_append.
  - by_summary (update_author_summary now store author_id author);
      try done.
    split; [split|done].
    + by apply keys_ok_update.
    + by apply (unique_ok_update _ _ (AuthorCreate.email author)).
  - by_summary (delete_author_summary now store author_id); [|done].
    split; [split|done].
    + by apply keys_ok_delete.
    + by apply unique_ok_delete.
  - by_summary (create_publisher_summary now store publisher); [done|].
    split; [done|split; [split|done]].
    + by apply keys_ok_append.
    + by apply unique_ok_append.
  - by_summary (update_publisher_summary now store publisher_id publisher);
      try done.
    split; [done|split; [split|done]].
    + by apply keys_ok_update.
    + by apply (unique_ok_update _ _ (PublisherCreate.email publisher)).
  - by_summary (delete_publisher_summary now store publisher_id); [|done].
    split; [done|split; [split|done]].
    + by apply keys_ok_delete.
    + by apply unique_ok_delete.
  - by_summary (create_book_summary now store book); try done.
    split; [done|split; [done|split; [|split]]].
    + by apply keys_ok_append.
    + by apply unique_ok_append.
    + by apply prices_ok_append.
  - by_summary (update_book_summary now store book_id book); try done.
    split; [done|split; [done|split; [|split]]].
    + by apply keys_ok_update.
    + by apply (unique_ok_update _ _ (BookCreate.isbn book)).
    + by apply prices_ok_update.
  - by_summary (delete_book_summary now store book_id); [|done].
    split; [done|split; [done|split; [|split]]].
    + by apply keys_ok_delete.
    + by apply unique_ok_delete.
    + by apply prices_ok_delete.
Qed.

Lemma well_formed_serve reqs store :
  well_formed store → well_formed (serve reqs store).
Proof.
  revert store. induction reqs as [|[now req] reqs IH]; intros store Hwf;
    [done|].
  cbn. by apply IH, well_formed_app.
Qed.

Lemma unique_ok_distinct {R} `{!Row R} (col : R → option string)
    (rows : list R) :
  NoDup (col <$> rows) → unique_ok col rows.
Proof.
  intros Hnd r1 r2 s H1 H2 C1 C2.
  apply list_elem_of_lookup in H1 as [k1 H1], H2 as [k2 H2].
  enough (k1 = k2) by congruence.
  eapply NoDup_lookup; [exact Hnd|..]; rewrite list_lookup_fmap.
  - rewrite H1. cbn. by rewrite C1.
  - rewrite H2. cbn. by rewrite C2.
Qed.

Lemma well_formed_sample now : well_formed (sample now).
Proof.
  unfold well_formed, keys_ok.
  repeat apply conj;
    try (apply unique_ok_distinct; apply (bool_decide_unpack _);
         by vm_compute);
    vm_compute; repeat first [done | constructor].
Qed.

(** X1. The sample data are well formed and every request keeps the store
    well formed: in each table the ids are positive, strictly increasing
    and not above the table's counter, no two rows share an email (an
    isbn), and the prices are as the REAL column keeps them.  So is every
    store reached from a well formed one by any series of requests. *)
Theorem store_stays_well_formed :
  (∀ now, well_formed (sample now))
  ∧ (∀ now store req,
       well_formed store →
       well_formed (stored (get_db now store (app req))))
  ∧ (∀ store reqs, well_formed store → well_formed (serve reqs store)).
Proof.
  split; [apply well_formed_sample|].
  split; [intros; by apply well_formed_app|].
  intros store reqs. apply well_formed_serve.
Qed.

Lemma store_stays_well_formed_sample :
  well_formed
    (serve [(sample_date, POST_authors (author_input "Mary Shelley" None));
            (sample_date, DELETE_author 1);
            (sample_date, PUT_book 2 untitled)]
       (sample sample_date)).
Proof.
  destruct store_stays_well_formed as (Hsample & _ & Hserve).
  apply Hserve, Hsample.
Defined.

(** ** Requests that change nothing *)

Ltac open_request req :=
  destruct req; cbn [app is_get table_of target may_raise deletes_parent];
  rewrite ?outcome_reply, ?stored_reply, ?statements_reply;
  rewrite ?list_authors_run, ?list_publishers_run, ?list_books_run,
    ?read_author_run, ?read_publisher_run, ?read_book_run.

Ltac summarize :=
  match goal with
  | |- context [get_db ?n ?s (create_author ?a)] =>
      by_summary (create_author_summary n s a)
  | |- context [get_db ?n ?s (update_author ?i ?a)] =>
      by_summary (update_author_summary n s i a)
  | |- context [get_db ?n ?s (delete_author ?i)] =>
      by_summary (delete_author_summary n s i)
  | |- context [get_db ?n ?s (create_publisher ?a)] =>
      by_summary (create_publisher_summary n s a)
  | |- context [get_db ?n ?s (update_publisher ?i ?a)] =>
      by_summary (update_publisher_summary n s i a)
  | |- context [get_db ?n ?s (delete_publisher ?i)] =>
      by_summary (delete_publisher_summary n s i)
  | |- context [get_db ?n ?s (create_book ?a)] =>
      by_summary (create_book_summary n s a)
  | |- context [get_db ?n ?s (update_book ?i ?a)] =>
      by_summary (update_book_summary n s i a)
  | |- context [get_db ?n ?s (delete_book ?i)] =>
      by_summary (delete_book_summary n s i)
  end.

Lemma failure_keeps_store now store req e :
  outcome (get_db now store (app req)) = Raise e →
  stored (get_db now store (app req)) = store.
Proof.
  open_request req; try done.
  - by by_summary (create_author_summary now store author).
  - by by_summary (update_author_summary now store author_id author).
  - by by_summary (delete_author_summary now store author_id).
  - by by_summary (create_publisher_summary now store publisher).
  - by by_summary (update_publisher_summary now store publisher_id publisher).
  - by by_summary (delete_publisher_summary now store publisher_id).
  - by by_summary (create_book_summary now store book).
  - by by_summary (update_book_summary now store book_id book).
  - by by_summary (delete_book_summary now store book_id).
Qed.

Lemma get_keeps_store now store req :
  is_get req = true →
  stored (get_db now store (app req)) = store
  ∧ statements (get_db now store (app req)) = [SELECT (table_of req)].
Proof. by open_request req. Qed.

Lemma serve_without_gets reqs store :
  serve (List.filter (λ x, negb (is_get x.2)) reqs) store = serve reqs store.
Proof.
  revert store. induction reqs as [|[now req] reqs IH]; intros store; [done|].
  cbn [List.filter snd]. destruct (is_get req) eqn:Hget; cbn [negb serve].
  - destruct (get_keeps_store now store req Hget) as [-> _]. apply IH.
  - apply IH.
Qed.

(** X2. A request that ends in an exception leaves the store as it was,
    and so does every GET, which runs one SELECT on its table and nothing
    else.  Taking the GETs out of a series of requests therefore does not
    change the store it ends in. *)
Theorem failures_and_gets_keep_store now store req :
  let r := get_db now store (app req) in
  (∀ e, outcome r = Raise e → stored r = store)
  ∧ (is_get req = true →
     stored r = store ∧ statements r = [SELECT (table_of req)])
  ∧ (∀ reqs,
       serve (List.filter (λ x, negb (is_get x.2)) reqs) store
       = serve reqs store).
Proof.
  split; [intros e; apply failure_keeps_store|].
  split; [apply get_keeps_store | intros; apply serve_without_gets].
Qed.

Lemma failures_and_gets_keep_store_sample :
  let store := sample sample_date in
  stored (get_db sample_date store
            (app (POST_authors
                    (author_input "J. Austen" (Some "jane@example.com")))))
  = store
  ∧ stored (get_db sample_date store
              (app (GET_books None None (Some "Classic") None None)))
    = store.
Proof.
  intros store. split.
  - destruct (failures_and_gets_keep_store sample_date store
                (POST_authors
                   (author_input "J. Austen" (Some "jane@example.com"))))
      as (Hfail & _).
    by apply (Hfail (IntegrityError "UNIQUE constraint failed: authors.email")).
  - destruct (failures_and_gets_keep_store sample_date store
                (GET_books None None (Some "Classic") None None))
      as (_ & Hget & _).
    by apply Hget.
Defined.

(** ** The exceptions of each route *)







(** ** Create, then get *)

Lemma author_fields_set n e b r :
  author_fields (set_author n e b r) = AuthorCreate.mk n e b.
Proof. done. Qed.

(** X4. A record that a create returns carries the fields of the input
    under an id no row had, the author also the day of the request as
    date_registered, the book its price as the REAL column keeps it, which
    is the price of the input unless that is a negative zero (or no
    number); the record is the last row of its table, and a get of its id
    returns it. *)
Theorem create_then_get now later store :
  (∀ a row,
     outcome (get_db now store (create_author a)) = Return row →
     let store' := stored (get_db now store (create_author a)) in
     author_fields row = a
     ∧ Author.date_registered row = Some now
     ∧ fetchone_by_id (Author.id row) (authors store) = None
     ∧ authors store' = authors store ++ [row]
     ∧ outcome (get_db later store' (read_author (Author.id row)))
       = Return row)
  ∧ (∀ p row,
       outcome (get_db now store (create_publisher p)) = Return row →
       let store' := stored (get_db now store (create_publisher p)) in
       publisher_fields row = p
       ∧ fetchone_by_id (Publisher.id row) (publishers store) = None
       ∧ publishers store' = publishers store ++ [row]
       ∧ outcome (get_db later store' (read_publisher (Publisher.id row)))
         = Return row)
  ∧ (∀ b row,
       outcome (get_db now store (create_book b)) = Return row →
       let store' := stored (get_db now store (create_book b)) in
       book_fields row = columns b
       ∧ (BookCreate.price b ≫= REAL = BookCreate.price b →
          book_fields row = b)
       ∧ fetchone_by_id (Book.id row) (books store) = None
       ∧ books store' = books store ++ [row]
       ∧ outcome (get_db later store' (read_book (Book.id row)))
         = Return row).
Proof.
  assert (∀ {R} `{!Row R} seq (rows : list R),
            fetchone_by_id (next_rowid seq rows) rows = None) as Hfresh.
  { intros R ? seq rows. apply fetchone_by_id_None. intros r Hr.
    pose proof (next_rowid_above seq rows r Hr). lia. }
  repeat apply conj.
  - intros a row.
    by_summary (create_author_summary now store a); intros [= <-]; cbv zeta.
    rewrite read_author_run. cbn.
    rewrite (fetchone_appended (seq_authors store) (authors store)) by done.
    repeat split; [by destruct a | apply Hfresh].
  - intros p row.
    by_summary (create_publisher_summary now store p); intros [= <-]; cbv zeta.
    rewrite read_publisher_run. cbn.
    rewrite (fetchone_appended (seq_publishers store) (publishers store))
      by done.
    repeat split; [by destruct p | apply Hfresh].
  - intros b row.
    by_summary (create_book_summary now store b); intros [= <-]; cbv zeta.
    rewrite read_book_run. cbn.
    rewrite (fetchone_appended (seq_books store) (books store)) by done.
    repeat split; [|apply Hfresh].
    intros Hprice. unfold book_fields, columns. cbn. rewrite Hprice.
    by destruct b.
Qed.

Lemma create_then_get_sample :
  let store := sample sample_date in
  let a := author_input "Mary Shelley" (Some "mary@example.com") in
  let row := Author.mk 3 "Mary Shelley" (Some "mary@example.com") None
               (Some sample_date) in
  outcome (get_db (Date 2024 2 2)
             (stored (get_db sample_date store (create_author a)))
             (read_author 3))
  = Return row.
Proof.
  intros store a row.
  destruct (create_then_get sample_date (Date 2024 2 2) store) as (Ha & _).
  destruct (Ha a row eq_refl) as (_ & _ & _ & _ & Hget).
  exact Hget.
Defined.

(** ** Delete, then get *)

Lemma deleted_author_absent now store i :
  fetchone_by_id i (authors (stored (get_db now store (delete_author i))))
  = None.
Proof.
  by_summary (delete_author_summary now store i); [|done].
  apply fetchone_delete_by_id.
Qed.

Lemma deleted_publisher_absent now store i :
  fetchone_by_id i
    (publishers (stored (get_db now store (delete_publisher i))))
  = None.
Proof.
  by_summary (delete_publisher_summary now store i); [|done].
  apply fetchone_delete_by_id.
Qed.

Lemma deleted_book_absent now store i :
  fetchone_by_id i (books (stored (get_db now store (delete_book i))))
  = None.
Proof.
  by_summary (delete_book_summary now store i); [|done].
  apply fetchone_delete_by_id.
Qed.

Lemma absent_fits t i : fits i → absent t i = not_found_in t.
Proof. intros Hi%int64_fits. unfold absent. by rewrite Hi. Qed.

(** X5. Once a delete of an id that fits 64 bits has been served, whether
    it found the row or not, a get, an update and a second delete of that
    id all answer with the 404 of the entity. *)
Theorem delete_then_not_found now later store i :
  fits i →
  (let store' := stored (get_db now store (delete_author i)) in
   ∀ a, outcome (get_db later store' (read_author i))
        = Raise (not_found_in authors_table)
        ∧ outcome (get_db later store' (update_author i a))
          = Raise (not_found_in authors_table)
        ∧ outcome (get_db later store' (delete_author i))
          = Raise (not_found_in authors_table))
  ∧ (let store' := stored (get_db now store (delete_publisher i)) in
     ∀ p, outcome (get_db later store' (read_publisher i))
          = Raise (not_found_in publishers_table)
          ∧ outcome (get_db later store' (update_publisher i p))
            = Raise (not_found_in publishers_table)
          ∧ outcome (get_db later store' (delete_publisher i))
            = Raise (not_found_in publishers_table))
  ∧ (let store' := stored (get_db now store (delete_book i)) in
     ∀ b, outcome (get_db later store' (read_book i))
          = Raise (not_found_in books_table)
          ∧ outcome (get_db later store' (update_book i b))
            = Raise (not_found_in books_table)
          ∧ outcome (get_db later store' (delete_book i))
            = Raise (not_found_in books_table)).
Proof.
  intros Hi. repeat apply conj; intros store' x; subst store'.
  - pose proof (deleted_author_absent now store i) as Hgone.
    rewrite read_author_run, !outcome_summary, update_author_summary,
      delete_author_summary. by rewrite !Hgone, absent_fits.
  - pose proof (deleted_publisher_absent now store i) as Hgone.
    rewrite read_publisher_run, !outcome_summary, update_publisher_summary,
      delete_publisher_summary. by rewrite !Hgone, absent_fits.
  - pose proof (deleted_book_absent now store i) as Hgone.
    rewrite read_book_run, !outcome_summary, update_book_summary,
      delete_book_summary. by rewrite !Hgone, absent_fits.
Qed.

Lemma delete_then_not_found_sample :
  let store' := stored (get_db sample_date (sample sample_date)
                          (delete_book 2)) in
  outcome (get_db sample_date store' (read_book 2))
  = Raise (HTTPException 404 "Book not found")
  ∧ outcome (get_db sample_date store' (delete_book 2))
    = Raise (HTTPException 404 "Book not found").
Proof.
  intros store'.
  assert (fits 2) as Hfits by (unfold fits; lia).
  destruct (delete_then_not_found sample_date sample_date
              (sample sample_date) 2 Hfits) as (_ & _ & Hb).
  destruct (Hb untitled) as (Hread & _ & Hdelete).
  split; [exact Hread | exact Hdelete].
Defined.

(** ** One request, one step on one table *)

Lemma app_steps now store req :
  let store' := stored (get_db now store (app req)) in
  table_step (target req) (seq_authors store) (authors store)
    (seq_authors store') (authors store')
  ∧ table_step (target req) (seq_publishers store) (publishers store)
      (seq_publishers store') (publishers store')
  ∧ table_step (target req) (seq_books store) (books store)
      (seq_books store') (books store').
Proof.
  open_request req; try summarize; cbn;
    repeat split;
    first [ apply step_none
          | by apply step_insert
          | by eapply step_update
          | by eapply step_delete ].
Qed.

Lemma app_other_tables now store req :
  let store' := stored (get_db now store (app req)) in
  (table_of req ≠ authors_table →
   authors store' = authors store ∧ seq_authors store' = seq_authors store)
  ∧ (table_of req ≠ publishers_table →
     publishers store' = publishers store
     ∧ seq_publishers store' = seq_publishers store)
  ∧ (table_of req ≠ books_table →
     books store' = books store ∧ seq_books store' = seq_books store).
Proof. open_request req; try summarize; by cbn. Qed.

Section step_facts.
Context {R : Type} `{!Row R}.
Implicit Types (rows : list R) (seq : Z) (tgt : option Z).

Lemma table_step_counter tgt seq rows seq' rows' :
  table_step tgt seq rows seq' rows' → seq ≤ seq'.
Proof.
  destruct 1; try lia. pose proof (next_rowid_grows seq rows). lia.
Qed.

Lemma table_step_other tgt seq rows seq' rows' j :
  table_step tgt seq rows seq' rows' →
  tgt ≠ Some j → is_Some (fetchone_by_id j rows) →
  fetchone_by_id j rows' = fetchone_by_id j rows.
Proof.
  destruct 1 as [|r Hr|i f -> Hid|i ->]; intros Hne Hj.
  - done.
  - by apply fetchone_app_found.
  - apply fetchone_update_other; [congruence | done].
  - apply fetchone_delete_other. congruence.
Qed.

Lemma table_step_keys tgt seq rows seq' rows' :
  table_step tgt seq rows seq' rows' → keys_ok seq rows → keys_ok seq' rows'.
Proof.
  destruct 1 as [|r Hr|i f -> Hid|i ->]; intros Hk.
  - done.
  - by apply keys_ok_append.
  - by apply keys_ok_update.
  - by apply keys_ok_delete.
Qed.
End step_facts.

(** X6. A request leaves every record it does not name as it was: a get
    of any other id that exists, in any of the three tables, returns after
    the request what it returned before. *)
Theorem other_records_untouched now later store req j :
  target req ≠ Some j →
  let store' := stored (get_db now store (app req)) in
  (is_Some (fetchone_by_id j (authors store)) →
   outcome (get_db later store' (read_author j))
   = outcome (get_db later store (read_author j)))
  ∧ (is_Some (fetchone_by_id j (publishers store)) →
     outcome (get_db later store' (read_publisher j))
     = outcome (get_db later store (read_publisher j)))
  ∧ (is_Some (fetchone_by_id j (books store)) →
     outcome (get_db later store' (read_book j))
     = outcome (get_db later store (read_book j))).
Proof.
  intros Hne store'.
  destruct (app_steps now store req) as (Ha & Hp & Hb).
  fold store' in Ha, Hp, Hb.
  rewrite !read_author_run, !read_publisher_run, !read_book_run.
  cbn [outcome]. repeat split; intros Hj.
  - by rewrite (table_step_other _ _ _ _ _ j Ha).
  - by rewrite (table_step_other _ _ _ _ _ j Hp).
  - by rewrite (table_step_other _ _ _ _ _ j Hb).
Qed.

Lemma other_records_untouched_sample :
  let store := sample sample_date in
  outcome (get_db sample_date
             (stored (get_db sample_date store (app (DELETE_author 1))))
             (read_author 2))
  = outcome (get_db sample_date store (read_author 2)).
Proof.
  intros store.
  destruct (other_records_untouched sample_date sample_date store
              (DELETE_author 1) 2) as (Ha & _); [done|].
  apply Ha. found.
Defined.

(** X7. A request works on one table: the rows and the counter of the
    other two tables are the same after it, and no request lowers a
    counter. *)
Theorem request_touches_one_table now store req :
  let store' := stored (get_db now store (app req)) in
  ((table_of req ≠ authors_table →
    authors store' = authors store ∧ seq_authors store' = seq_authors store)
   ∧ (table_of req ≠ publishers_table →
      publishers store' = publishers store
      ∧ seq_publishers store' = seq_publishers store)
   ∧ (table_of req ≠ books_table →
      books store' = books store ∧ seq_books store' = seq_books store))
  ∧ (seq_authors store ≤ seq_authors store'
     ∧ seq_publishers store ≤ seq_publishers store'
     ∧ seq_books store ≤ seq_books store').
Proof.
  intros store'. split; [apply app_other_tables|].
  destruct (app_steps now store req) as (Ha & Hp & Hb).
  split; [|split].
  - exact (table_step_counter _ _ _ _ _ Ha).
  - exact (table_step_counter _ _ _ _ _ Hp).
  - exact (table_step_counter _ _ _ _ _ Hb).
Qed.

Lemma request_touches_one_table_sample :
  let store := sample sample_date in
  let store' := stored (get_db sample_date store (app (DELETE_author 1))) in
  books store' = books store ∧ publishers store' = publishers store.
Proof.
  intros store store'.
  destruct (request_touches_one_table sample_date store (DELETE_author 1))
    as ((_ & Hp & Hb) & _).
  split; [by apply Hb | by apply Hp].
Defined.

(** ** Ids are not given out twice *)

Lemma serve_counters reqs store :
  seq_authors store ≤ seq_authors (serve reqs store)
  ∧ seq_publishers store ≤ seq_publishers (serve reqs store)
  ∧ seq_books store ≤ seq_books (serve reqs store).
Proof.
  revert store. induction reqs as [|[now req] reqs IH]; intros store;
    [done|].
  cbn [serve].
  destruct (IH (stored (get_db now store (app req)))) as (Ia & Ip & Ib).
  destruct (app_steps now store req) as (Ha & Hp & Hb).
  apply table_step_counter in Ha, Hp, Hb. lia.
Qed.

(** X8. In a well formed store the id of a row is never given to a row
    created later, whatever requests are served in between, deletes of
    that row included: the new id is above it. *)
Theorem ids_never_reused now store reqs :
  well_formed store →
  (∀ r a row,
     r ∈ authors store →
     outcome (get_db now (serve reqs store) (create_author a)) = Return row →
     Author.id r < Author.id row)
  ∧ (∀ r p row,
       r ∈ publishers store →
       outcome (get_db now (serve reqs store) (create_publisher p))
       = Return row →
       Publisher.id r < Publisher.id row)
  ∧ (∀ r b row,
       r ∈ books store →
       outcome (get_db now (serve reqs store) (create_book b)) = Return row →
       Book.id r < Book.id row).
Proof.
  intros ((Ka & _) & (Kp & _) & (Kb & _)).
  destruct (serve_counters reqs store) as (Ca & Cp & Cb).
  repeat apply conj.
  - intros r a row Hr. pose proof (keys_ok_counter _ _ _ Ka Hr) as Hid.
    by_summary (create_author_summary now (serve reqs store) a);
      intros [= <-]; cbn.
    pose proof (next_rowid_grows (seq_authors (serve reqs store))
                  (authors (serve reqs store))).
    unfold row_id, author_row in Hid. lia.
  - intros r p row Hr. pose proof (keys_ok_counter _ _ _ Kp Hr) as Hid.
    by_summary (create_publisher_summary now (serve reqs store) p);
      intros [= <-]; cbn.
    pose proof (next_rowid_grows (seq_publishers (serve reqs store))
                  (publishers (serve reqs store))).
    unfold row_id, publisher_row in Hid. lia.
  - intros r b row Hr. pose proof (keys_ok_counter _ _ _ Kb Hr) as Hid.
    by_summary (create_book_summary now (serve reqs store) b);
      intros [= <-]; cbn.
    pose proof (next_rowid_grows (seq_books (serve reqs store))
                  (books (serve reqs store))).
    unfold row_id, book_row in Hid. lia.
Qed.

Lemma ids_never_reused_sample :
  let store := sample sample_date in
  let orwell := Author.mk 2 "George Orwell" (Some "george@example.com")
                  (Some "English novelist and essayist")
                  (Some sample_date) in
  let store' := serve [(sample_date, DELETE_author 2)] store in
  fetchone_by_id 2 (authors store') = None
  ∧ ∃ row, outcome (get_db sample_date store'
                      (create_author (author_input "Eric Blair" None)))
           = Return row
           ∧ Author.id orwell < Author.id row.
Proof.
  intros store orwell store'.
  destruct (ids_never_reused sample_date store
              [(sample_date, DELETE_author 2)]
              (well_formed_sample sample_date)) as (Ha & _).
  split; [reflexivity|].
  exists (Author.mk 3 "Eric Blair" None None (Some sample_date)).
  split; [reflexivity|].
  apply (Ha orwell (author_input "Eric Blair" None)); [|reflexivity].
  apply list_elem_of_further, list_elem_of_here.
Defined.

(** ** Repeating an update *)

Lemma set_author_twice n e b r :
  set_author n e b (set_author n e b r) = set_author n e b r.
Proof. done. Qed.

Lemma set_publisher_twice n a ph e r :
  set_publisher n a ph e (set_publisher n a ph e r)
  = set_publisher n a ph e r.
Proof. done. Qed.

Lemma set_book_twice b r : set_book b (set_book b r) = set_book b r.
Proof. done. Qed.

(** X9. An update that went through can be sent again: the second one
    returns the same record and leaves the store as the first one left
    it. *)
Theorem update_is_idempotent now later store i :
  (∀ a row,
     let r := get_db now store (update_author i a) in
     outcome r = Return row →
     summary (get_db later (stored r) (update_author i a))
     = (Return row, stored r))
  ∧ (∀ p row,
       let r := get_db now store (update_publisher i p) in
       outcome r = Return row →
       summary (get_db later (stored r) (update_publisher i p))
       = (Return row, stored r))
  ∧ (∀ b row,
       let r := get_db now store (update_book i b) in
       outcome r = Return row →
       summary (get_db later (stored r) (update_book i b))
       = (Return row, stored r)).
Proof.
  repeat apply conj.
  - intros a row r. subst r.
    by_summary (update_author_summary now store i a); intros [= <-].
    rewrite update_author_summary. cbn.
    rewrite fetchone_update_by_id by done.
    match goal with H : fetchone_by_id _ _ = Some _ |- _ => rewrite H end.
    cbn. rewrite (unique_conflict_update Author.email) by done.
    by rewrite update_by_id_twice.
  - intros p row r. subst r.
    by_summary (update_publisher_summary now store i p); intros [= <-].
    rewrite update_publisher_summary. cbn.
    rewrite fetchone_update_by_id by done.
    match goal with H : fetchone_by_id _ _ = Some _ |- _ => rewrite H end.
    cbn. rewrite (unique_conflict_update Publisher.email) by done.
    by rewrite update_by_id_twice.
  - intros b row r. subst r.
    by_summary (update_book_summary now store i b); intros [= <-].
    rewrite update_book_summary. cbn.
    rewrite fetchone_update_by_id by done.
    repeat match goal with H : _ = _ |- _ => rewrite H end.
    cbn. rewrite (unique_conflict_update Book.isbn) by done.
    by rewrite update_by_id_twice.
Qed.

Lemma update_is_idempotent_sample :
  let store := sample sample_date in
  let a := author_input "J. Austen" None in
  let r := get_db sample_date store (update_author 1 a) in
  summary (get_db (Date 2024 2 2) (stored r) (update_author 1 a))
  = (Return (Author.mk 1 "J. Austen" None None (Some sample_date)), stored r).
Proof.
  intros store a r.
  destruct (update_is_idempotent sample_date (Date 2024 2 2) store 1)
    as (Ha & _).
  apply Ha. vm_compute. reflexivity.
Defined.

(** ** Sending a record back as it is *)

Lemma update_by_id_same {R} `{!Row R} seq i (f : R → R) (rows : list R) old :
  keys_ok seq rows → fetchone_by_id i rows = Some old → f old = old →
  update_by_id i f rows = rows.
Proof.
  intros Hk Hold Hf. destruct (fetchone_by_id_Some _ _ _ Hold) as [Hid Hin].
  unfold update_by_id. rewrite <- (list_fmap_id rows) at 2.
  apply list_fmap_ext. intros k r Hr. cbn.
  destruct (Z.eqb_spec (row_id r) i) as [Hi|Hi]; [|done].
  assert (r = old) as ->; [|done].
  eapply keys_ok_same_row; [done| |done|congruence].
  by eapply list_elem_of_lookup_2.
Qed.

Lemma unique_conflict_own {R} `{!Row R} (col : R → option string) seq i
    (rows : list R) old :
  keys_ok seq rows → unique_ok col rows → fetchone_by_id i rows = Some old →
  unique_conflict col (Some i) (col old) rows = false.
Proof.
  intros Hk Hu Hold. destruct (fetchone_by_id_Some _ _ _ Hold) as [<- Hin].
  by eapply unique_ok_own.
Qed.

(** X10. In a well formed store, an update that sends an author or a
    publisher back with the fields it has returns the record and changes
    nothing; so does the update of a book with its own fields when the
    author and the publisher it names, if any, still exist.  (The price a
    well formed store holds is one the REAL column gives back as it is.) *)
Theorem update_with_own_fields now store :
  well_formed store →
  (∀ i old,
     fetchone_by_id i (authors store) = Some old →
     summary (get_db now store (update_author i (author_fields old)))
     = (Return old, store))
  ∧ (∀ i old,
       fetchone_by_id i (publishers store) = Some old →
       summary (get_db now store (update_publisher i (publisher_fields old)))
       = (Return old, store))
  ∧ (∀ i old,
       fetchone_by_id i (books store) = Some old →
       dangling (Book.author_id old) (authors store) = false →
       dangling (Book.publisher_id old) (publishers store) = false →
       summary (get_db now store (update_book i (book_fields old)))
       = (Return old, store)).
Proof.
  intros ((Ka & Ua) & (Kp & Up) & (Kb & Ub & Pb)).
  repeat apply conj.
  - intros i old Hold. rewrite update_author_summary, Hold. cbn.
    rewrite (unique_conflict_own Author.email _ _ _ _ Ka Ua Hold).
    assert (set_author (Author.name old) (Author.email old)
              (Author.bio old) old = old) as Hset by by destruct old.
    rewrite Hset, (update_by_id_same _ _ _ _ _ Ka Hold Hset).
    by destruct store.
  - intros i old Hold. rewrite update_publisher_summary, Hold. cbn.
    rewrite (unique_conflict_own Publisher.email _ _ _ _ Kp Up Hold).
    assert (set_publisher (Publisher.name old) (Publisher.address old)
              (Publisher.phone old) (Publisher.email old) old = old)
      as Hset by by destruct old.
    rewrite Hset, (update_by_id_same _ _ _ _ _ Kp Hold Hset).
    by destruct store.
  - intros i old Hold Ha Hp. rewrite update_book_summary, Hold. cbn.
    rewrite Ha, Hp.
    rewrite (unique_conflict_own Book.isbn _ _ _ _ Kb Ub Hold).
    assert (set_book (book_fields old) old = old) as Hset.
    { destruct (fetchone_by_id_Some _ _ _ Hold) as [_ Hin].
      eapply Forall_forall in Pb; [|exact Hin].
      unfold set_book, columns, book_fields, book_of. cbn. rewrite Pb.
      by destruct old. }
    rewrite Hset, (update_by_id_same _ _ _ _ _ Kb Hold Hset).
    by destruct store.
Qed.

Lemma update_with_own_fields_sample :
  let store := sample sample_date in
  let orwell := Author.mk 2 "George Orwell" (Some "george@example.com")
                  (Some "English novelist and essayist")
                  (Some sample_date) in
  summary (get_db (Date 2024 2 2) store
             (update_author 2 (author_fields orwell)))
  = (Return orwell, store).
Proof.
  intros store orwell.
  destruct (update_with_own_fields (Date 2024 2 2) store
              (well_formed_sample sample_date)) as (Ha & _).
  apply Ha. vm_compute. reflexivity.
Defined.

(** ** Books left without their author or publisher *)

(** X11. After the delete of an author, a book that names this author can
    no longer be written: the update that sends the book back with its own
    fields, and the create of a copy, end at the check of the author and
    change nothing.  They end as the lookup of an absent id does: with 404
    "Author not found" for an id that fits 64 bits, as every id a table
    holds does.  The same holds for a deleted publisher and "Publisher not
    found" when the author of the book is none or still exists. *)
Theorem orphaned_book_cannot_be_saved now later store i ib book :
  fetchone_by_id ib (books store) = Some book →
  (fits i → absent authors_table i = not_found_in authors_table
            ∧ absent publishers_table i = not_found_in publishers_table)
  ∧ (Book.author_id book = Some i →
     let store' := stored (get_db now store (delete_author i)) in
     summary (get_db later store' (update_book ib (book_fields book)))
     = (Raise (absent authors_table i), store')
     ∧ summary (get_db later store' (create_book (book_fields book)))
       = (Raise (absent authors_table i), store'))
  ∧ (Book.publisher_id book = Some i →
     dangling (Book.author_id book) (authors store) = false →
     let store' := stored (get_db now store (delete_publisher i)) in
     summary (get_db later store' (update_book ib (book_fields book)))
     = (Raise (absent publishers_table i), store')
     ∧ summary (get_db later store' (create_book (book_fields book)))
       = (Raise (absent publishers_table i), store')).
Proof.
  intros Hbook. split; [intros Hi; by rewrite !absent_fits|]. split.
  - intros Href store'.
    pose proof (deleted_author_absent now store i) as Hgone.
    assert (books store' = books store) as Hbooks.
    { subst store'. by by_summary (delete_author_summary now store i). }
    fold store' in Hgone. clearbody store'.
    rewrite update_book_summary, create_book_summary, Hbooks, Hbook. cbn.
    by rewrite Href; cbn; rewrite Hgone.
  - intros Href Ha store'.
    pose proof (deleted_publisher_absent now store i) as Hgone.
    assert (books store' = books store ∧ authors store' = authors store)
      as [Hbooks Hauthors].
    { subst store'. by by_summary (delete_publisher_summary now store i). }
    fold store' in Hgone. clearbody store'.
    rewrite update_book_summary, create_book_summary, Hbooks, Hbook. cbn.
    by rewrite Hauthors, Ha, Href; cbn; rewrite Hgone.
Qed.

Lemma orphaned_book_cannot_be_saved_sample :
  let store := sample sample_date in
  let book := book_of 1
                (BookCreate.mk "Pride and Prejudice"
                   (Some "A romantic novel of manners")
                   (Some "9780141439518") (Some (Date 1813 1 28))
                   (Some 12.99%float) (Some "Classic") (Some 1) (Some 1)) in
  let store' := stored (get_db sample_date store (delete_author 1)) in
  outcome (get_db sample_date store' (update_book 1 (book_fields book)))
  = Raise (HTTPException 404 "Author not found").
Proof.
  intros store book store'.
  destruct (orphaned_book_cannot_be_saved sample_date sample_date store
              1 1 book eq_refl) as (_ & Ha & _).
  destruct (Ha eq_refl) as (Hupdate & _).
  exact (f_equal fst Hupdate).
Defined.

(** ** Paging through a table *)

Lemma limit_offset_pages {R} (rows : list R) skip n m :
  0 ≤ skip → 0 ≤ n → 0 ≤ m →
  limit_offset n skip rows ++ limit_offset m (skip + n) rows
  = limit_offset (n + m) skip rows.
Proof.
  intros Hs Hn Hm. rewrite !limit_offset_nonneg by lia.
  rewrite !Z2Nat.inj_add by lia.
  rewrite <- drop_drop. apply take_take_drop.
Qed.

Lemma limit_offset_all {R} (rows : list R) limit :
  Z.of_nat (length rows) ≤ limit → limit_offset limit 0 rows = rows.
Proof.
  intros Hl. rewrite limit_offset_nonneg by lia. cbn.
  apply take_ge. lia.
Qed.

Lemma limit_offset_past {R} (rows : list R) skip limit :
  Z.of_nat (length rows) ≤ skip → limit_offset limit skip rows = [].
Proof.
  intros Hs. unfold limit_offset.
  rewrite drop_ge by lia. cbv zeta.
  destruct (limit <? 0); [done | apply take_nil].
Qed.

Lemma pages_fit_limit_offset {R} (rows : list R)
    (listing : Z → Z → result (list R)) skip n m :
  0 ≤ skip → 0 ≤ n → 0 ≤ m → fits (skip + n) → fits (n + m) →
  (∀ k l, 0 ≤ k → 0 ≤ l → fits k → fits l →
     listing k l = Return (limit_offset l k rows)) →
  pages_fit rows listing skip n m.
Proof.
  unfold fits. intros Hs Hn Hm Hsn Hnm Hrun.
  exists (limit_offset n skip rows), (limit_offset m (skip + n) rows).
  rewrite !Hrun by (unfold fits; lia).
  split; [done|]. split; [done|]. split; [|split].
  - by rewrite limit_offset_pages.
  - apply limit_offset_past.
  - intros ->. apply limit_offset_all.
Qed.

(** X12. Pages fit together: for paging parameters that are not negative
    and stay within 64 bits, the page of [n] rows after [skip] followed by
    the page of [m] rows after [skip + n] is the page of [n + m] rows
    after [skip]; a page that starts at or behind the end of the table is
    empty, and the page from the start that is at least as long as the
    table is the whole table.  For books this holds of the rows the
    filters select from the table, for filter ids within 64 bits: the
    filters are applied first, the paging after. *)
Theorem pages_fit_together now store skip n m :
  0 ≤ skip → 0 ≤ n → 0 ≤ m → fits (skip + n) → fits (n + m) →
  pages_fit (authors store)
    (λ skip limit, outcome (get_db now store (read_authors skip limit)))
    skip n m
  ∧ pages_fit (publishers store)
      (λ skip limit, outcome (get_db now store (read_publishers skip limit)))
      skip n m
  ∧ (∀ genre author_id publisher_id,
       bindable author_id = true → bindable publisher_id = true →
       pages_fit (selected genre author_id publisher_id (books store))
         (λ skip limit,
            outcome (get_db now store
                       (read_books skip limit genre author_id publisher_id)))
         skip n m).
Proof.
  intros Hs Hn Hm Hsn Hnm. repeat apply conj.
  - apply pages_fit_limit_offset; try done.
    intros k l _ _ Hk%int64_fits Hl%int64_fits.
    by rewrite read_authors_run, Hk, Hl.
  - apply pages_fit_limit_offset; try done.
    intros k l _ _ Hk%int64_fits Hl%int64_fits.
    by rewrite read_publishers_run, Hk, Hl.
  - intros genre author_id publisher_id Ha Hp.
    apply pages_fit_limit_offset; try done.
    intros k l _ _ Hk%int64_fits Hl%int64_fits.
    by rewrite read_books_run, !bindable_given, Hk, Hl.
Qed.

Lemma pages_fit_together_sample :
  let store := sample sample_date in
  ∃ l1 l2,
    outcome (get_db sample_date store (read_authors 0 1)) = Return l1
    ∧ outcome (get_db sample_date store (read_authors 1 1)) = Return l2
    ∧ outcome (get_db sample_date store (read_authors 0 2))
      = Return (l1 ++ l2).
Proof.
  intros store.
  destruct (pages_fit_together sample_date store 0 1 1)
    as ((l1 & l2 & H1 & H2 & H12 & _) & _);
    [lia | lia | lia | unfold fits; lia | unfold fits; lia |].
  exists l1, l2. split; [exact H1|]. split; [exact H2 | exact H12].
Defined.

(** ** Deleting a row *)

Lemma delete_by_id_absent {R} `{!Row R} i (rows : list R) :
  Forall (λ r, row_id r ≠ i) rows → delete_by_id i rows = rows.
Proof.
  unfold delete_by_id. induction 1 as [|r rows Hr _ IH]; [done|].
  cbn. destruct (Z.eqb_spec (row_id r) i); [done | by rewrite IH].
Qed.

Lemma delete_by_id_one {R} `{!Row R} i (rows : list R) old :
  StronglySorted Z.lt (row_id <$> rows) →
  fetchone_by_id i rows = Some old →
  ∃ l1 l2, rows = l1 ++ old :: l2 ∧ delete_by_id i rows = l1 ++ l2.
Proof.
  induction rows as [|r rows IH]; [done|].
  rewrite fmap_cons. intros [Hs Hlt]%StronglySorted_inv.
  unfold fetchone_by_id, delete_by_id in *. cbn.
  destruct (Z.eqb_spec (row_id r) i) as [Hi|Hi]; cbn.
  - intros [= ->]. exists [], rows. split; [done|].
    apply (delete_by_id_absent i rows).
    rewrite Forall_fmap in Hlt. eapply Forall_impl; [exact Hlt|]. cbn. lia.
  - intros Hold. destruct (IH Hs Hold) as (l1 & l2 & -> & Hdel).
    exists (r :: l1), l2. split; [done|]. cbn. by rewrite Hdel.
Qed.

(** X13. In a well formed store a delete that finds its row takes out
    that row and no other: the table is what it was with the one row cut
    out, the order of the others kept, and is one row shorter. *)
Theorem delete_removes_one_row now store i :
  well_formed store →
  (∀ old, fetchone_by_id i (authors store) = Some old →
     ∃ l1 l2, authors store = l1 ++ old :: l2
              ∧ authors (stored (get_db now store (delete_author i)))
                = l1 ++ l2)
  ∧ (∀ old, fetchone_by_id i (publishers store) = Some old →
       ∃ l1 l2, publishers store = l1 ++ old :: l2
                ∧ publishers (stored (get_db now store (delete_publisher i)))
                  = l1 ++ l2)
  ∧ (∀ old, fetchone_by_id i (books store) = Some old →
       ∃ l1 l2, books store = l1 ++ old :: l2
                ∧ books (stored (get_db now store (delete_book i)))
                  = l1 ++ l2).
Proof.
  intros (((Sa & _) & _) & ((Sp & _) & _) & ((Sb & _) & _)).
  repeat apply conj; intros old Hold.
  - destruct (delete_by_id_one i _ old Sa Hold) as (l1 & l2 & Hl & Hdel).
    exists l1, l2. split; [done|].
    rewrite stored_summary, delete_author_summary, Hold. by cbn.
  - destruct (delete_by_id_one i _ old Sp Hold) as (l1 & l2 & Hl & Hdel).
    exists l1, l2. split; [done|].
    rewrite stored_summary, delete_publisher_summary, Hold. by cbn.
  - destruct (delete_by_id_one i _ old Sb Hold) as (l1 & l2 & Hl & Hdel).
    exists l1, l2. split; [done|].
    rewrite stored_summary, delete_book_summary, Hold. by cbn.
Qed.

Lemma delete_removes_one_row_sample :
  let store := sample sample_date in
  ∃ l1 l2 old,
    authors store = l1 ++ old :: l2
    ∧ authors (stored (get_db sample_date store (delete_author 1)))
      = l1 ++ l2.
Proof.
  intros store.
  destruct (delete_removes_one_row sample_date store 1
              (well_formed_sample sample_date)) as (Ha & _).
  destruct (Ha (Author.mk 1 "Jane Austen" (Some "jane@example.com")
                  (Some "Famous English novelist known for her six major novels")
                  (Some sample_date)) eq_refl) as (l1 & l2 & H1 & H2).
  exists l1, l2, (Author.mk 1 "Jane Austen" (Some "jane@example.com")
                   (Some "Famous English novelist known for her six major novels")
                   (Some sample_date)).
  split; [exact H1 | exact H2].
Defined.

(** ** References of books *)

Lemma dangling_append {R} `{!Row R} ref (rows : list R) r :
  dangling ref rows = false → dangling ref (rows ++ [r]) = false.
Proof.
  unfold dangling. destruct ref as [i|]; [|done].
  destruct (fetchone_by_id i rows) eqn:Hi; [|done].
  intros _. rewrite fetchone_app_found by eauto. by rewrite Hi.
Qed.

Lemma dangling_update {R} `{!Row R} ref i (f : R → R) (rows : list R) :
  (∀ r, row_id (f r) = row_id r) →
  dangling ref (update_by_id i f rows) = dangling ref rows.
Proof.
  intros Hid. unfold dangling. destruct ref as [j|]; [|done].
  pose proof (is_Some_fetchone_update i j f rows Hid) as Hiff.
  destruct (fetchone_by_id j (update_by_id i f rows)) eqn:H1,
           (fetchone_by_id j rows) eqn:H2; try done.
  - destruct (proj1 Hiff) as [? [=]]. eauto.
  - destruct (proj2 Hiff) as [? [=]]. eauto.
Qed.

Lemma references_ok_app now store req :
  deletes_parent req = false →
  references_ok store →
  references_ok (stored (get_db now store (app req))).
Proof.
  intros Hreq Hok. unfold references_ok in *.
  open_request req; try done; try summarize; try done; cbn.
  - eapply Forall_impl; [exact Hok|]. cbn. intros b [Ha Hp].
    split; [by apply dangling_append | done].
  - eapply Forall_impl; [exact Hok|]. cbn. intros b [Ha Hp].
    split; [by rewrite dangling_update | done].
  - eapply Forall_impl; [exact Hok|]. cbn. intros b [Ha Hp].
    split; [done | by apply dangling_append].
  - eapply Forall_impl; [exact Hok|]. cbn. intros b [Ha Hp].
    split; [done | by rewrite dangling_update].
  - apply Forall_app. split; [done|]. by repeat constructor.
  - unfold update_by_id. apply Forall_fmap.
    eapply Forall_impl; [exact Hok|]. cbn. intros b [Ha Hp].
    by destruct (row_id b =? book_id).
  - apply Forall_forall. intros b Hb.
    apply elem_of_delete_by_id in Hb as [Hb _].
    by eapply Forall_forall in Hok.
Qed.

Lemma references_ok_serve reqs store :
  forallb (λ x, negb (deletes_parent x.2)) reqs = true →
  references_ok store → references_ok (serve reqs store).
Proof.
  revert store. induction reqs as [|[now req] reqs IH]; intros store;
    [done|].
  cbn [forallb snd serve]. intros [Hreq Hreqs]%andb_true_iff Hok.
  apply IH; [done|]. apply references_ok_app; [|done].
  by apply negb_true_iff.
Qed.

Lemma references_ok_sample now : references_ok (sample now).
Proof. apply (bool_decide_unpack _). vm_compute. exact I. Qed.

(** X14. Every request other than the delete of an author or of a
    publisher keeps the references of the books whole: if every book named
    an existing author and an existing publisher, or none, before the
    request, so it does after it.  The sample data have that property, and
    so has every store reached from them without such a delete. *)
Theorem references_kept_without_parent_delete now store reqs :
  forallb (λ x, negb (deletes_parent x.2)) reqs = true →
  references_ok store →
  references_ok (serve reqs store)
  ∧ references_ok (serve reqs (sample now)).
Proof.
  intros Hreqs Hok. split.
  - by apply references_ok_serve.
  - apply references_ok_serve; [done | apply references_ok_sample].
Qed.

Lemma references_kept_without_parent_delete_sample :
  references_ok
    (serve [(sample_date, POST_books (with_references (Some 2) None untitled));
            (sample_date, PUT_author 2 (author_input "Eric Blair" None));
            (sample_date, DELETE_book 1)]
       (sample sample_date)).
Proof.
  apply (references_kept_without_parent_delete sample_date
           (sample sample_date)); [reflexivity|].
  apply references_ok_sample.
Defined.

(** ** When a write goes through *)




